(** * A shallow embedding of computers/playwright/playwright.py

    The Python class [PlaywrightComputer] drives a browser through the
    Playwright engine.  The engine is not part of the repository: it is
    modelled here as an arbitrary [Engine] (which calls raise, how the
    browser state moves), and every method of the class is a program in a
    small state-and-exception monad that records each engine call it
    issues.  Python [int] is [Z]; Python [str] is the [string] of its
    UTF-8 bytes; [bytes] is [list byte]; [None]-able handles are
    [option]. *)

From Stdlib Require Import ZArith String Ascii List Lia Strings.Byte DecimalString.
From stdpp Require Import base option gmap strings list.
Import ListNotations.
Local Open Scope string_scope.
Local Open Scope Z_scope.

(** ** Python built-ins used by the source *)

Module Py.

(** The exceptions the code can meet: the two it raises itself or
    provokes ([ValueError], [IndexError]), the one a method call on
    [None] gives, and whatever the engine raises. *)
Inductive Exn :=
| ValueError (args : list string)
| IndexError (msg : string)
| AttributeError (msg : string)
| EngineError (msg : string).

Definition dq : string := String (ascii_of_nat 34) EmptyString.
Definition nl : string := String (ascii_of_nat 10) EmptyString.

(** [str.lower].  On ASCII text it moves A-Z to a-z and leaves every
    other character.  What it gives for text with characters outside
    ASCII (the Unicode case tables) is not modelled: it is a parameter of
    the development, so that what is proved holds whatever those tables
    say. *)
Class Unicode := { lower_non_ascii : string -> string }.

Definition lower_char (c : ascii) : ascii :=
  let n := nat_of_ascii c in
  if ((65 <=? n)%nat && (n <=? 90)%nat)%bool then ascii_of_nat (n + 32) else c.

Fixpoint lower_ascii (s : string) : string :=
  match s with
  | EmptyString => EmptyString
  | String c r => String (lower_char c) (lower_ascii r)
  end.

Fixpoint is_ascii (s : string) : bool :=
  match s with
  | EmptyString => true
  | String c r => ((nat_of_ascii c <? 128)%nat && is_ascii r)%bool
  end.

Definition lower {U : Unicode} (s : string) : string :=
  if is_ascii s then lower_ascii s else lower_non_ascii s.

(** [s.startswith((p1, ..., pn))]: some member of the tuple is a prefix. *)
Definition startswith (s : string) (prefixes : list string) : bool :=
  existsb (fun p => String.prefix p s) prefixes.

(** [str(n)] and [f"{n}"] for an int: signed decimal. *)
Definition str (n : Z) : string := NilZero.string_of_int (Z.to_int n).

(** [d.get(k, default)] *)
Definition dict_get (d : gmap string string) (k default : string) : string :=
  match d !! k with
  | Some v => v
  | None => default
  end.

(** Index normalisation of [l[i]]: a negative index counts from the
    end; what is still outside [0, len) raises IndexError. *)
Definition getitem {A} (l : list A) (i : Z) : Exn + A :=
  let n := Z.of_nat (length l) in
  let j := if (i <? 0)%Z then (i + n)%Z else i in
  if ((0 <=? j)%Z && (j <? n)%Z)%bool then
    match nth_error l (Z.to_nat j) with
    | Some a => inr a
    | None => inl (IndexError "list index out of range")
    end
  else inl (IndexError "list index out of range").

(** [l[:stop]]: slicing clips instead of raising. *)
Definition slice_to {A} (l : list A) (stop : Z) : list A :=
  let n := Z.of_nat (length l) in
  let j := if (stop <? 0)%Z then Z.max 0 (stop + n)%Z else Z.min stop n in
  firstn (Z.to_nat j) l.

(** [reversed(l)], consumed by a for loop. *)
Definition reversed {A} (l : list A) : list A := rev l.

End Py.
Import Py.

(** ** PLAYWRIGHT_KEY_MAP *)

Definition PLAYWRIGHT_KEY_MAP : gmap string string :=
  list_to_map
    [ ("backspace", "Backspace");
      ("tab", "Tab");
      ("return", "Enter");
      ("enter", "Enter");
      ("shift", "Shift");
      ("control", "ControlOrMeta");
      ("alt", "Alt");
      ("escape", "Escape");
      ("space", "Space");
      ("pageup", "PageUp");
      ("pagedown", "PageDown");
      ("end", "End");
      ("home", "Home");
      ("left", "ArrowLeft");
      ("up", "ArrowUp");
      ("right", "ArrowRight");
      ("down", "ArrowDown");
      ("insert", "Insert");
      ("delete", "Delete");
      ("semicolon", ";");
      ("equals", "=");
      ("multiply", "Multiply");
      ("add", "Add");
      ("separator", "Separator");
      ("subtract", "Subtract");
      ("decimal", "Decimal");
      ("divide", "Divide");
      ("f1", "F1");
      ("f2", "F2");
      ("f3", "F3");
      ("f4", "F4");
      ("f5", "F5");
      ("f6", "F6");
      ("f7", "F7");
      ("f8", "F8");
      ("f9", "F9");
      ("f10", "F10");
      ("f11", "F11");
      ("f12", "F12");
      ("command", "Meta") ].

(** ** The engine boundary *)

(** Engine objects (the engine handle, the browser, the context, pages)
    are named by handles. *)
Definition Handle := nat.

(** The engine calls the class makes, one constructor per awaited method,
    with the receiver first. *)
Inductive Call :=
| Start
| Launch (pw : Handle) (args : list string) (headless : bool)
| NewContext (b : Handle) (width height : Z)
| NewPage (c : Handle)
| ContextClose (c : Handle)
| BrowserClose (b : Handle)
| Stop (pw : Handle)
| PageClose (p : Handle)
| Goto (p : Handle) (url : string)
| GoBack (p : Handle)
| GoForward (p : Handle)
| WaitForLoadState (p : Handle)
| WaitForTimeout (p : Handle) (ms : Z)
| Screenshot (p : Handle) (type : string) (full_page : bool)
| Evaluate (p : Handle) (script : string)
| MouseClick (p : Handle) (x y : Z)
| MouseMove (p : Handle) (x y : Z)
| MouseDown (p : Handle)
| MouseUp (p : Handle)
| MouseWheel (p : Handle) (dx dy : Z)
| KeyboardDown (p : Handle) (key : string)
| KeyboardUp (p : Handle) (key : string)
| KeyboardPress (p : Handle) (key : string)
| KeyboardType (p : Handle) (text : string).

(** What the class reads from engine objects without awaiting:
    [context.pages], [page.url], [page.viewport_size], and the raster a
    viewport screenshot of a page encodes. *)
Record World := {
  open_pages : list Handle;
  page_url : Handle -> string;
  viewport_size : Handle -> option (Z * Z);
  pixels : Handle -> list byte
}.

(** An engine decides, for a call in a world, whether the call raises,
    the world afterwards, and the object a constructor call returns. *)
Record Engine := {
  fault : Call -> World -> option Exn;
  next : Call -> World -> World;
  new_object : Call -> World -> Handle
}.

(** Modelled from the spec: EnvState is declared in computers/computer.py,
    which is not among the sources; the spec's StateSnapshot is the
    screenshot bytes and the page's URL at capture time. *)
Record EnvState := {
  screenshot : list byte;
  url : string
}.

(** ** The object and the monad *)

Record PlaywrightComputer := {
  _initial_url : string;
  _screen_size : Z * Z;
  _search_engine_url : string;
  _highlight_mouse : bool;
  _playwright : option Handle;
  _browser : option Handle;
  _context : option Handle;
  _page : option Handle
}.

Definition __init__ (screen_size : Z * Z) (initial_url search_engine_url : option string)
    (highlight_mouse : option bool) : PlaywrightComputer :=
  {| _initial_url := default "https://www.google.com" initial_url;
     _screen_size := screen_size;
     _search_engine_url := default "https://www.google.com" search_engine_url;
     _highlight_mouse := default false highlight_mouse;
     _playwright := None;
     _browser := None;
     _context := None;
     _page := None |}.

(** A run threads the one mutable object [self], the engine-side world,
    the engine calls issued so far (oldest first) and the contexts on
    which the popup handler is registered. *)
Record St := {
  self : PlaywrightComputer;
  world : World;
  log : list Call;
  listeners : list Handle
}.

Inductive Result (A : Type) :=
| Returned (a : A)
| Raised (e : Exn).
Arguments Returned {A} a.
Arguments Raised {A} e.

Definition M (A : Type) : Type := St -> Result A * St.

Definition ret {A} (a : A) : M A := fun s => (Returned a, s).

Definition raise {A} (e : Exn) : M A := fun s => (Raised e, s).

Definition bind {A B} (m : M A) (k : A -> M B) : M B :=
  fun s =>
    match m s with
    | (Returned a, s') => k a s'
    | (Raised e, s') => (Raised e, s')
    end.

Declare Scope py_scope.
Delimit Scope py_scope with py.
Notation "x <- m ;; k" := (bind m (fun x => k))
  (at level 100, m at next level, right associativity) : py_scope.
Notation "m ;; k" := (bind m (fun _ => k))
  (at level 100, right associativity) : py_scope.
Local Open Scope py_scope.

Definition get_self : M PlaywrightComputer := fun s => (Returned (self s), s).

Definition set_self (f : PlaywrightComputer -> PlaywrightComputer) : M unit :=
  fun s => (Returned tt,
            {| self := f (self s); world := world s; log := log s; listeners := listeners s |}).

(** [for x in l: body(x)] *)
Fixpoint for_each {A} (l : list A) (body : A -> M unit) : M unit :=
  match l with
  | [] => ret tt
  | x :: r => body x ;; for_each r body
  end.

(** [obj.attr] where [obj] may be [None]. *)
Definition attr {A} (obj : option A) (name : string) : M A :=
  match obj with
  | Some a => ret a
  | None => raise (AttributeError ("'NoneType' object has no attribute '" ++ name ++ "'"))
  end.

(** [self._page.<name>] *)
Definition self_page (name : string) : M Handle :=
  me <- get_self ;; attr (_page me) name.

(** A subscript that may raise. *)
Definition subscript {A} (l : list A) (i : Z) : M A :=
  match getitem l i with
  | inr a => ret a
  | inl e => raise e
  end.

(** [x in (a, b, ...)] on strings *)
Definition contains (x : string) (t : list string) : bool :=
  existsb (String.eqb x) t.

(** Line 222: [[PLAYWRIGHT_KEY_MAP.get(k.lower(), k) for k in keys]] *)
Definition normalized {U : Unicode} (keys : list string) : list string :=
  map (fun k => dict_get PLAYWRIGHT_KEY_MAP (lower k) k) keys.

(** The f-string of [highlight_mouse], with the doubled braces read as
    single ones and [{x}], [{y}] formatted in. *)
Definition highlight_script (x y : Z) : string :=
  String.concat nl
    [ EmptyString;
      "            () => {";
      "                const element_id = " ++ dq ++ "playwright-feedback-circle" ++ dq ++ ";";
      "                const div = document.createElement('div');";
      "                div.id = element_id;";
      "                div.style.pointerEvents = 'none';";
      "                div.style.border = '4px solid red';";
      "                div.style.borderRadius = '50%';";
      "                div.style.width = '20px';";
      "                div.style.height = '20px';";
      "                div.style.position = 'fixed';";
      "                div.style.zIndex = '9999';";
      "                document.body.appendChild(div);";
      "                div.hidden = false;";
      "                div.style.left = " ++ str x ++ "-10+'px';";
      "                div.style.top = " ++ str y ++ "-10+'px';";
      "                setTimeout(() => { div.hidden = true; }, 2000);";
      "            }";
      "        " ].

(** The flags [__aenter__] launches chromium with. *)
Definition launch_args : list string :=
  [ "--disable-extensions";
    "--disable-file-system";
    "--disable-plugins";
    "--disable-dev-shm-usage";
    "--disable-background-networking";
    "--disable-default-apps";
    "--disable-sync" ].

Definition set_playwright (h : Handle) (me : PlaywrightComputer) : PlaywrightComputer :=
  {| _initial_url := _initial_url me; _screen_size := _screen_size me;
     _search_engine_url := _search_engine_url me; _highlight_mouse := _highlight_mouse me;
     _playwright := Some h; _browser := _browser me; _context := _context me;
     _page := _page me |}.

Definition set_browser (h : Handle) (me : PlaywrightComputer) : PlaywrightComputer :=
  {| _initial_url := _initial_url me; _screen_size := _screen_size me;
     _search_engine_url := _search_engine_url me; _highlight_mouse := _highlight_mouse me;
     _playwright := _playwright me; _browser := Some h; _context := _context me;
     _page := _page me |}.

Definition set_context (h : Handle) (me : PlaywrightComputer) : PlaywrightComputer :=
  {| _initial_url := _initial_url me; _screen_size := _screen_size me;
     _search_engine_url := _search_engine_url me; _highlight_mouse := _highlight_mouse me;
     _playwright := _playwright me; _browser := _browser me; _context := Some h;
     _page := _page me |}.

Definition set_page (h : Handle) (me : PlaywrightComputer) : PlaywrightComputer :=
  {| _initial_url := _initial_url me; _screen_size := _screen_size me;
     _search_engine_url := _search_engine_url me; _highlight_mouse := _highlight_mouse me;
     _playwright := _playwright me; _browser := _browser me; _context := _context me;
     _page := Some h |}.

(** ** The methods of PlaywrightComputer *)

Section Methods.
Context (E : Engine).
Context {U : Unicode}.
(** [sys.platform] *)
Variable sys_platform : string.

(** [await obj.method(...)] with the result dropped: the call is
    logged, the engine moves the world, and the engine's exception, if
    any, is raised here. *)
Definition call (c : Call) : M unit := fun s =>
  (match fault E c (world s) with
   | None => Returned tt
   | Some e => Raised e
   end,
   {| self := self s; world := next E c (world s); log := log s ++ [c];
      listeners := listeners s |}).

(** An awaited call that returns a new engine object. *)
Definition call_new (c : Call) : M Handle := fun s =>
  (match fault E c (world s) with
   | None => Returned (new_object E c (world s))
   | Some e => Raised e
   end,
   {| self := self s; world := next E c (world s); log := log s ++ [c];
      listeners := listeners s |}).

(** [await page.screenshot(type=..., full_page=...)] *)
Definition call_screenshot (p : Handle) (type : string) (full_page : bool)
    : M (list byte) := fun s =>
  let c := Screenshot p type full_page in
  (match fault E c (world s) with
   | None => Returned (pixels (next E c (world s)) p)
   | Some e => Raised e
   end,
   {| self := self s; world := next E c (world s); log := log s ++ [c];
      listeners := listeners s |}).

(** [page.url] and [page.viewport_size]: property reads, no await. *)
Definition read_url (p : Handle) : M string :=
  fun s => (Returned (page_url (world s) p), s).

Definition read_viewport_size (p : Handle) : M (option (Z * Z)) :=
  fun s => (Returned (viewport_size (world s) p), s).

(** [await self._page.<name>...(...)] *)
Definition page_call (name : string) (c : Handle -> Call) : M unit :=
  p <- self_page name ;; call (c p).

(** [context.on("page", handler)] *)
Definition on_page (c : Handle) : M unit := fun s =>
  (Returned tt,
   {| self := self s; world := world s; log := log s; listeners := listeners s ++ [c] |}).

Definition _handle_new_page (new_page : Handle) : M unit :=
  new_url <- read_url new_page ;;
  call (PageClose new_page) ;;
  page_call "goto" (fun p => Goto p new_url).

(** The two prints are left out. *)
Definition __aenter__ : M unit :=
  pw <- call_new Start ;;
  set_self (set_playwright pw) ;;
  b <- call_new (Launch pw launch_args true) ;;
  set_self (set_browser b) ;;
  me <- get_self ;;
  c <- call_new (NewContext b (fst (_screen_size me)) (snd (_screen_size me))) ;;
  set_self (set_context c) ;;
  p <- call_new (NewPage c) ;;
  set_self (set_page p) ;;
  me <- get_self ;;
  page_call "goto" (fun p => Goto p (_initial_url me)) ;;
  me <- get_self ;;
  c <- attr (_context me) "on" ;;
  on_page c ;;
  ret tt.

(** The "page" event of context [c] for a page the browser has just
    opened: each handler registered on [c] runs. *)
Definition emit_page (c new_page : Handle) : M unit :=
  s <- (fun s => (Returned s, s)) ;;
  for_each (List.filter (fun c' => Nat.eqb c' c) (listeners s))
           (fun _ => _handle_new_page new_page).

Definition __aexit__ : M unit :=
  me <- get_self ;;
  match _context me with
  | Some c => call (ContextClose c)
  | None => ret tt
  end ;;
  me <- get_self ;;
  match _browser me with
  | Some b => call (BrowserClose b)
  | None => ret tt
  end ;;
  me <- get_self ;;
  match _playwright me with
  | Some pw => call (Stop pw)
  | None => ret tt
  end.

Definition current_state : M EnvState :=
  page_call "wait_for_load_state" WaitForLoadState ;;
  page_call "wait_for_timeout" (fun p => WaitForTimeout p 500) ;;
  p <- self_page "screenshot" ;;
  screenshot_bytes <- call_screenshot p "png" false ;;
  p <- self_page "url" ;;
  u <- read_url p ;;
  ret {| screenshot := screenshot_bytes; url := u |}.

Definition screen_size : M (Z * Z) :=
  p <- self_page "viewport_size" ;;
  viewport_size <- read_viewport_size p ;;
  match viewport_size with
  | Some (width, height) => ret (width, height)
  | None => me <- get_self ;; ret (_screen_size me)
  end.

Definition highlight_mouse (x y : Z) : M unit :=
  me <- get_self ;;
  if negb (_highlight_mouse me) then ret tt
  else
    page_call "evaluate" (fun p => Evaluate p (highlight_script x y)) ;;
    page_call "wait_for_timeout" (fun p => WaitForTimeout p 1000).

Definition open_web_browser : M EnvState := current_state.

Definition click_at (x y : Z) : M EnvState :=
  highlight_mouse x y ;;
  page_call "mouse" (fun p => MouseClick p x y) ;;
  page_call "wait_for_load_state" WaitForLoadState ;;
  current_state.

Definition hover_at (x y : Z) : M EnvState :=
  highlight_mouse x y ;;
  page_call "mouse" (fun p => MouseMove p x y) ;;
  page_call "wait_for_load_state" WaitForLoadState ;;
  current_state.

Definition key_combination (keys : list string) : M EnvState :=
  let keys := normalized keys in
  for_each (slice_to keys (-1))
           (fun key => page_call "keyboard" (fun p => KeyboardDown p key)) ;;
  p <- self_page "keyboard" ;;
  last_key <- subscript keys (-1) ;;
  call (KeyboardPress p last_key) ;;
  for_each (reversed (slice_to keys (-1)))
           (fun key => page_call "keyboard" (fun p => KeyboardUp p key)) ;;
  current_state.

Definition type_text_at (x y : Z) (text : string)
    (press_enter clear_before_typing : option bool) : M EnvState :=
  let press_enter := default false press_enter in
  let clear_before_typing := default true clear_before_typing in
  highlight_mouse x y ;;
  page_call "mouse" (fun p => MouseClick p x y) ;;
  page_call "wait_for_load_state" WaitForLoadState ;;
  (if clear_before_typing then
     (if String.eqb sys_platform "darwin"
      then key_combination ["Command"; "A"]
      else key_combination ["Control"; "A"]) ;;
     key_combination ["Delete"] ;;
     ret tt
   else ret tt) ;;
  page_call "keyboard" (fun p => KeyboardType p text) ;;
  (if press_enter then key_combination ["Enter"] ;; ret tt else ret tt) ;;
  page_call "wait_for_load_state" WaitForLoadState ;;
  current_state.

Definition _horizontal_document_scroll (direction : string) : M EnvState :=
  size <- screen_size ;;
  let horizontal_scroll_amount := (fst size / 2)%Z in
  let sign := if String.eqb direction "left" then "-" else EmptyString in
  let scroll_argument := sign ++ str horizontal_scroll_amount in
  page_call "evaluate"
            (fun p => Evaluate p ("window.scrollBy(" ++ scroll_argument ++ ", 0);")) ;;
  page_call "wait_for_load_state" WaitForLoadState ;;
  current_state.

Definition scroll_document (direction : string) : M EnvState :=
  if String.eqb direction "down" then key_combination ["PageDown"]
  else if String.eqb direction "up" then key_combination ["PageUp"]
  else if contains direction ["left"; "right"] then _horizontal_document_scroll direction
  else raise (ValueError ["Unsupported direction: "; direction]).

Definition scroll_at (x y : Z) (direction : string) (magnitude : option Z)
    : M EnvState :=
  let magnitude := default 800%Z magnitude in
  highlight_mouse x y ;;
  page_call "mouse" (fun p => MouseMove p x y) ;;
  page_call "wait_for_load_state" WaitForLoadState ;;
  d <- (if String.eqb direction "up" then ret (0, - magnitude)%Z
        else if String.eqb direction "down" then ret (0, magnitude)%Z
        else if String.eqb direction "left" then ret (- magnitude, 0)%Z
        else if String.eqb direction "right" then ret (magnitude, 0)%Z
        else raise (ValueError ["Unsupported direction: "; direction])) ;;
  page_call "mouse" (fun p => MouseWheel p (fst d) (snd d)) ;;
  page_call "wait_for_load_state" WaitForLoadState ;;
  current_state.

Definition wait_5_seconds : M EnvState :=
  page_call "wait_for_timeout" (fun p => WaitForTimeout p 5000) ;;
  current_state.

Definition go_back : M EnvState :=
  page_call "go_back" GoBack ;;
  page_call "wait_for_load_state" WaitForLoadState ;;
  current_state.

Definition go_forward : M EnvState :=
  page_call "go_forward" GoForward ;;
  page_call "wait_for_load_state" WaitForLoadState ;;
  current_state.

Definition navigate (url : string) : M EnvState :=
  let url := if negb (startswith url ["http://"; "https://"])
             then "https://" ++ url else url in
  page_call "goto" (fun p => Goto p url) ;;
  page_call "wait_for_load_state" WaitForLoadState ;;
  current_state.

Definition search : M EnvState :=
  me <- get_self ;;
  navigate (_search_engine_url me).

Definition drag_and_drop (x y destination_x destination_y : Z) : M EnvState :=
  highlight_mouse x y ;;
  page_call "mouse" (fun p => MouseMove p x y) ;;
  page_call "wait_for_load_state" WaitForLoadState ;;
  page_call "mouse" MouseDown ;;
  page_call "wait_for_load_state" WaitForLoadState ;;
  highlight_mouse destination_x destination_y ;;
  page_call "mouse" (fun p => MouseMove p destination_x destination_y) ;;
  page_call "wait_for_load_state" WaitForLoadState ;;
  page_call "mouse" MouseUp ;;
  current_state.

End Methods.

(** ** Vocabulary of the statements *)

(** No engine call raises. *)
Definition reliable (E : Engine) : Prop :=
  forall c w, fault E c w = None.

(** The world after the calls [cs], issued in order. *)
Definition run_calls (E : Engine) (cs : list Call) (w : World) : World :=
  fold_left (fun w c => next E c w) cs w.

(** The state after the calls [cs] were issued and logged. *)
Definition after (E : Engine) (cs : list Call) (s : St) : St :=
  {| self := self s; world := run_calls E cs (world s); log := log s ++ cs;
     listeners := listeners s |}.

(** The calls of one [current_state]. *)
Definition capture_calls (p : Handle) : list Call :=
  [WaitForLoadState p; WaitForTimeout p 500; Screenshot p "png" false].

(** The calls of one [highlight_mouse]. *)
Definition highlight_calls (on : bool) (p : Handle) (x y : Z) : list Call :=
  if on then [Evaluate p (highlight_script x y); WaitForTimeout p 1000] else [].

(** The engine's part of the popup contract: closing a page removes it
    from the context's pages, a navigation that returns leaves the page
    on the URL asked for and opens or closes nothing. *)
Definition remove_page (q : Handle) (l : list Handle) : list Handle :=
  List.filter (fun p => negb (Nat.eqb p q)) l.

Record conforming (E : Engine) : Prop := {
  close_removes : forall q w,
    open_pages (next E (PageClose q) w) = remove_page q (open_pages w);
  goto_lands : forall p u w, page_url (next E (Goto p u) w) p = u;
  goto_keeps_pages : forall p u w,
    open_pages (next E (Goto p u) w) = open_pages w
}.

(** A program only ever appends to the log and leaves [self] and the
    registered listeners alone. *)
Definition appends {A} (m : M A) : Prop :=
  forall s, exists cs : list Call,
    log (snd (m s)) = (log s ++ cs)%list /\ self (snd (m s)) = self s
    /\ listeners (snd (m s)) = listeners s.

(** Following the spec's words ("the URL lacks a scheme"): the scheme of
    a URL is a letter followed by letters, digits, "+", "-" or ".", up to
    the first colon (RFC 3986, section 3.1). *)
Definition is_alpha (c : ascii) : bool :=
  let n := nat_of_ascii c in
  (((65 <=? n)%nat && (n <=? 90)%nat) || ((97 <=? n)%nat && (n <=? 122)%nat))%bool.

Definition is_scheme_char (c : ascii) : bool :=
  let n := nat_of_ascii c in
  (is_alpha c || ((48 <=? n)%nat && (n <=? 57)%nat)
   || (n =? 43)%nat || (n =? 45)%nat || (n =? 46)%nat)%bool.

Fixpoint scheme_rest (s : string) : option string :=
  match s with
  | EmptyString => None
  | String c r =>
      if (nat_of_ascii c =? 58)%nat then Some EmptyString
      else if is_scheme_char c then
        match scheme_rest r with
        | Some t => Some (String c t)
        | None => None
        end
      else None
  end.

Definition scheme_of (url : string) : option string :=
  match url with
  | EmptyString => None
  | String c r =>
      if is_alpha c then
        match scheme_rest r with
        | Some t => Some (String c t)
        | None => None
        end
      else None
  end.

Definition lacks_scheme (url : string) : bool :=
  match scheme_of url with
  | Some _ => false
  | None => true
  end.

(** The teardown calls of [__aexit__] for the handles that are set. *)
Definition teardown_calls (me : PlaywrightComputer) : list Call :=
  (match _context me with Some c => [ContextClose c] | None => [] end
   ++ match _browser me with Some b => [BrowserClose b] | None => [] end
   ++ match _playwright me with Some pw => [Stop pw] | None => [] end)%list.

(** The URL [navigate] hands to [goto]. *)
Definition goto_target (url : string) : string :=
  if startswith url ["http://"; "https://"] then url else "https://" ++ url.

(** The calls of one [scroll_at] that gets as far as the wheel event
    with delta [(dx, dy)]. *)
Definition scroll_at_calls (on : bool) (p : Handle) (x y dx dy : Z) : list Call :=
  (highlight_calls on p x y
   ++ [MouseMove p x y; WaitForLoadState p; MouseWheel p dx dy; WaitForLoadState p]
   ++ capture_calls p)%list.

(** The width [screen_size] reports: the live viewport's when the page
    has one, the configured one otherwise. *)
Definition screen_width (s : St) (p : Handle) : Z :=
  match viewport_size (world s) p with
  | Some (width, _) => width
  | None => fst (_screen_size (self s))
  end.

(** A program that raises whatever the engine does. *)
Definition never_returns {A} (m : M A) : Prop :=
  forall s, exists e, fst (m s) = Raised e.

(** The wheel events among some calls. *)
Definition is_wheel (c : Call) : bool :=
  match c with
  | MouseWheel _ _ _ => true
  | _ => false
  end.

(** The keyboard events among some calls. *)
Definition is_keyboard (c : Call) : bool :=
  match c with
  | KeyboardDown _ _ | KeyboardUp _ _ | KeyboardPress _ _ | KeyboardType _ _ => true
  | _ => false
  end.

(** ** Concrete engines and sessions *)

(** Text in which [str.lower] leaves what is outside ASCII alone. *)
#[global] Instance ascii_text : Unicode := {| lower_non_ascii := fun s => s |}.

Definition set_url (p : Handle) (u : string) (f : Handle -> string) : Handle -> string :=
  fun h => if Nat.eqb h p then u else f h.

(** What a browser does when all goes well. *)
Definition steady_next (c : Call) (w : World) : World :=
  match c with
  | NewContext _ width height =>
      {| open_pages := open_pages w; page_url := page_url w;
         viewport_size := fun _ => Some (width, height); pixels := pixels w |}
  | NewPage _ =>
      {| open_pages := open_pages w ++ [4 + length (open_pages w)]%nat;
         page_url := page_url w; viewport_size := viewport_size w; pixels := pixels w |}
  | PageClose q =>
      {| open_pages := remove_page q (open_pages w); page_url := page_url w;
         viewport_size := viewport_size w; pixels := pixels w |}
  | ContextClose _ =>
      {| open_pages := []; page_url := page_url w;
         viewport_size := viewport_size w; pixels := pixels w |}
  | Goto p u =>
      {| open_pages := open_pages w; page_url := set_url p u (page_url w);
         viewport_size := viewport_size w; pixels := pixels w |}
  | _ => w
  end.

Definition steady_object (c : Call) (w : World) : Handle :=
  match c with
  | Start => 1%nat
  | Launch _ _ _ => 2%nat
  | NewContext _ _ _ => 3%nat
  | NewPage _ => (4 + length (open_pages w))%nat
  | _ => 0%nat
  end.

(** An engine on which no call raises. *)
Definition steady : Engine :=
  {| fault := fun _ _ => None; next := steady_next; new_object := steady_object |}.

(** The same browser, except that the calls picked by [bad] raise. *)
Definition failing (bad : Call -> bool) (e : Exn) : Engine :=
  {| fault := fun c _ => if bad c then Some e else None;
     next := steady_next; new_object := steady_object |}.

(** A browser whose context is already gone: closing it raises. *)
Definition is_context_close (c : Call) : bool :=
  match c with
  | ContextClose _ => true
  | _ => false
  end.

Definition crashed_context : Engine :=
  failing is_context_close (EngineError "Target page, context or browser has been closed").

(** main.py: [PLAYWRIGHT_SCREEN_SIZE = (1440, 900)] *)
Definition PLAYWRIGHT_SCREEN_SIZE : Z * Z := (1440, 900)%Z.

Definition nothing_open : World :=
  {| open_pages := []; page_url := fun _ => "about:blank";
     viewport_size := fun _ => None; pixels := fun _ => [] |}.

(** Before [__aenter__]: the object as [__init__] leaves it. *)
Definition unattached : St :=
  {| self := __init__ PLAYWRIGHT_SCREEN_SIZE None None None;
     world := nothing_open; log := []; listeners := [] |}.

(** After [__aenter__] on the steady browser. *)
Definition attached : St := snd (__aenter__ steady unattached).

(** The attached session with its log cleared, to read off what one
    action issues. *)
Definition session : St :=
  {| self := self attached; world := world attached; log := [];
     listeners := listeners attached |}.

(** The session at the moment the browser has opened a second page. *)
Definition with_popup (q : Handle) (u : string) (s : St) : St :=
  {| self := self s;
     world := {| open_pages := open_pages (world s) ++ [q];
                 page_url := set_url q u (page_url (world s));
                 viewport_size := viewport_size (world s);
                 pixels := pixels (world s) |};
     log := log s; listeners := listeners s |}.

(** ** Vocabulary for the remaining methods *)

(** A program that, on an engine whose calls return, returns a snapshot
    after exactly the calls [cs]. *)
Definition runs (E : Engine) (m : M EnvState) (cs : list Call) (s : St) : Prop :=
  exists snap, m s = (Returned snap, after E cs s).

(** Whenever the action returns a snapshot, the last three calls are
    those of a capture and the snapshot is read off the world the action
    ends in. *)
Definition fresh_snapshot (m : M EnvState) : Prop :=
  forall s p snap s',
    _page (self s) = Some p -> m s = (Returned snap, s') ->
    (exists cs : list Call, log s' = (log s ++ cs ++ capture_calls p)%list)
    /\ url snap = page_url (world s') p
    /\ screenshot snap = pixels (world s') p.

(** The action gives up on a missing attribute of [None], with the state
    as it was. *)
Definition refuses (m : M EnvState) (s : St) : Prop :=
  exists msg, m s = (Raised (AttributeError msg), s).

(** The modifier of the select-all chord of [type_text_at], normalised. *)
Definition select_all_modifier (sys_platform : string) : string :=
  if String.eqb sys_platform "darwin" then "Meta" else "ControlOrMeta".

(** The calls of one [type_text_at] that goes through. *)
Definition type_text_at_calls (sys_platform : string) (on : bool) (p : Handle)
    (x y : Z) (text : string) (press_enter clear_before_typing : bool) : list Call :=
  (highlight_calls on p x y
   ++ [MouseClick p x y; WaitForLoadState p]
   ++ (if clear_before_typing
       then [KeyboardDown p (select_all_modifier sys_platform); KeyboardPress p "A";
             KeyboardUp p (select_all_modifier sys_platform)]
            ++ capture_calls p ++ [KeyboardPress p "Delete"] ++ capture_calls p
       else [])
   ++ [KeyboardType p text]
   ++ (if press_enter then [KeyboardPress p "Enter"] ++ capture_calls p else [])
   ++ [WaitForLoadState p]
   ++ capture_calls p)%list.

(** The calls of one [drag_and_drop] that goes through. *)
Definition drag_and_drop_calls (on : bool) (p : Handle)
    (x y destination_x destination_y : Z) : list Call :=
  (highlight_calls on p x y
   ++ [MouseMove p x y; WaitForLoadState p; MouseDown p; WaitForLoadState p]
   ++ highlight_calls on p destination_x destination_y
   ++ [MouseMove p destination_x destination_y; WaitForLoadState p; MouseUp p]
   ++ capture_calls p)%list.

(** The mouse events among some calls. *)
Definition is_mouse (c : Call) : bool :=
  match c with
  | MouseClick _ _ _ | MouseMove _ _ _ | MouseDown _ | MouseUp _ | MouseWheel _ _ _ => true
  | _ => false
  end.

Definition is_key_up (c : Call) : bool :=
  match c with
  | KeyboardUp _ _ => true
  | _ => false
  end.

Definition is_key_press (c : Call) : bool :=
  match c with
  | KeyboardPress _ _ => true
  | _ => false
  end.

Definition is_launch (c : Call) : bool :=
  match c with
  | Launch _ _ _ => true
  | _ => false
  end.

Definition is_page_close (c : Call) : bool :=
  match c with
  | PageClose _ => true
  | _ => false
  end.

(** The same session with the mouse highlight switched on. *)
Definition highlighting (s : St) : St :=
  {| self := {| _initial_url := _initial_url (self s);
                _screen_size := _screen_size (self s);
                _search_engine_url := _search_engine_url (self s);
                _highlight_mouse := true;
                _playwright := _playwright (self s); _browser := _browser (self s);
                _context := _context (self s); _page := _page (self s) |};
     world := world s; log := log s; listeners := listeners s |}.

(** The calls [cs], issued in order from the world [w], all return. *)
Fixpoint returns_all (E : Engine) (cs : list Call) (w : World) : Prop :=
  match cs with
  | [] => True
  | c :: rest => fault E c w = None /\ returns_all E rest (next E c w)
  end.

Definition is_stop (c : Call) : bool :=
  match c with
  | Stop _ => true
  | _ => false
  end.

Definition is_goto (c : Call) : bool :=
  match c with
  | Goto _ _ => true
  | _ => false
  end.

Definition is_evaluate (c : Call) : bool :=
  match c with
  | Evaluate _ _ => true
  | _ => false
  end.

(** The name "BAC", the Kelvin sign U+212A (three UTF-8 bytes), "SPACE",
    and text in which [str.lower] takes it to "backspace", as Python's
    does. *)
Definition kelvin_backspace : string :=
  "BAC" ++ String (ascii_of_nat 226) (String (ascii_of_nat 132)
             (String (ascii_of_nat 170) "SPACE")).

Definition kelvin_text : Unicode :=
  {| lower_non_ascii := fun s => if String.eqb s kelvin_backspace then "backspace" else s |}.

(** ** Basic facts about the monad and the engine boundary *)

Section Basics.
Context (E : Engine).
Context {U : Unicode}.

Lemma after_nil s : after E [] s = s.
Proof. destruct s; unfold after; simpl. by rewrite app_nil_r. Qed.

Lemma after_after cs1 cs2 s : after E cs2 (after E cs1 s) = after E (cs1 ++ cs2) s.
Proof.
  unfold after, run_calls; simpl.
  by rewrite fold_left_app, <- app_assoc.
Qed.

Lemma ret_bind {A B} (a : A) (k : A -> M B) s : bind (ret a) k s = k a s.
Proof. reflexivity. Qed.

Lemma bind_returned {A B} (m : M A) (k : A -> M B) s a s' :
  m s = (Returned a, s') -> bind m k s = k a s'.
Proof. intros H. unfold bind. by rewrite H. Qed.

Lemma bind_raised {A B} (m : M A) (k : A -> M B) s e s' :
  m s = (Raised e, s') -> bind m k s = (Raised e, s').
Proof. intros H. unfold bind. by rewrite H. Qed.

Lemma self_page_attached name s p :
  _page (self s) = Some p -> self_page name s = (Returned p, s).
Proof. intros H. unfold self_page, bind, get_self, attr. by rewrite H. Qed.

Lemma call_ok c s :
  fault E c (world s) = None -> call E c s = (Returned tt, after E [c] s).
Proof. intros H. unfold call. by rewrite H. Qed.

Lemma call_fault c s e :
  fault E c (world s) = Some e -> call E c s = (Raised e, after E [c] s).
Proof. intros H. unfold call. by rewrite H. Qed.

Lemma page_call_ok name c s p :
  _page (self s) = Some p -> fault E (c p) (world s) = None ->
  page_call E name c s = (Returned tt, after E [c p] s).
Proof.
  intros Hp Hf. unfold page_call.
  rewrite (bind_returned _ _ _ _ _ (self_page_attached name s p Hp)).
  by apply call_ok.
Qed.

Lemma page_call_fault name c s p e :
  _page (self s) = Some p -> fault E (c p) (world s) = Some e ->
  page_call E name c s = (Raised e, after E [c p] s).
Proof.
  intros Hp Hf. unfold page_call.
  rewrite (bind_returned _ _ _ _ _ (self_page_attached name s p Hp)).
  by apply call_fault.
Qed.

Lemma call_new_ok c s :
  fault E c (world s) = None ->
  call_new E c s = (Returned (new_object E c (world s)), after E [c] s).
Proof. intros H. unfold call_new. by rewrite H. Qed.

Lemma call_screenshot_ok p type full_page s :
  fault E (Screenshot p type full_page) (world s) = None ->
  call_screenshot E p type full_page s
  = (Returned (pixels (world (after E [Screenshot p type full_page] s)) p),
     after E [Screenshot p type full_page] s).
Proof. intros H. unfold call_screenshot. by rewrite H. Qed.

(** A loop of page calls over a list issues one call per element, in
    list order. *)
Lemma for_each_page_calls name (c : string -> Handle -> Call) keys s p :
  reliable E -> _page (self s) = Some p ->
  for_each keys (fun key => page_call E name (c key)) s
  = (Returned tt, after E (map (fun key => c key p) keys) s).
Proof.
  intros Hrel. revert s. induction keys as [|k keys IH]; intros s Hp; simpl.
  - by rewrite after_nil.
  - rewrite (bind_returned _ _ _ _ _ (page_call_ok name (c k) s p Hp (Hrel _ _))).
    rewrite IH by done. by rewrite after_after.
Qed.

End Basics.

(** One step of a run on a reliable engine with the page attached: the
    next [page_call], [self_page] or loop of page calls is replaced by its
    effect. *)
Ltac run_step Hrel Hp :=
  match goal with
  | |- context [bind (page_call ?E ?n ?c) ?k ?s] =>
      rewrite (bind_returned (page_call E n c) k s tt _
                 (page_call_ok E n c s _ Hp (Hrel _ _)))
  | |- context [bind (self_page ?n) ?k ?s] =>
      rewrite (bind_returned (self_page n) k s _ _ (self_page_attached n s _ Hp))
  | |- context [bind (for_each ?l (fun key => page_call ?E ?n (@?c key))) ?k ?s] =>
      rewrite (bind_returned _ k s tt _ (for_each_page_calls E n c l s _ Hrel Hp))
  | |- context [bind (call_screenshot ?E ?p ?t ?f) ?k ?s] =>
      rewrite (bind_returned _ k s _ _ (call_screenshot_ok E p t f s (Hrel _ _)))
  | |- context [page_call ?E ?n ?c ?s] =>
      rewrite (page_call_ok E n c s _ Hp (Hrel _ _))
  end;
  rewrite ?after_after.

Section Snapshots.
Context (E : Engine).
Context {U : Unicode}.

Lemma current_state_ok s p :
  reliable E -> _page (self s) = Some p ->
  current_state E s
  = (Returned {| screenshot := pixels (world (after E (capture_calls p) s)) p;
                 url := page_url (world (after E (capture_calls p) s)) p |},
     after E (capture_calls p) s).
Proof.
  intros Hrel Hp. unfold current_state.
  do 5 run_step Hrel Hp.
  reflexivity.
Qed.

Lemma highlight_mouse_ok x y s p :
  reliable E -> _page (self s) = Some p ->
  highlight_mouse E x y s
  = (Returned tt, after E (highlight_calls (_highlight_mouse (self s)) p x y) s).
Proof.
  intros Hrel Hp. unfold highlight_mouse, highlight_calls.
  unfold bind at 1, get_self.
  destruct (_highlight_mouse (self s)); simpl.
  - do 2 run_step Hrel Hp. reflexivity.
  - unfold ret. by rewrite after_nil.
Qed.

End Snapshots.

(** The same for a whole [highlight_mouse] or [current_state]. *)
Ltac run_method Hrel Hp :=
  match goal with
  | |- context [bind (highlight_mouse ?E ?x ?y) ?k ?s] =>
      rewrite (bind_returned _ k s tt _ (highlight_mouse_ok E x y s _ Hrel Hp))
  | |- context [current_state ?E ?s] =>
      rewrite (current_state_ok E s _ Hrel Hp)
  end;
  rewrite ?after_after.

Example attached_session :
  self attached
  = {| _initial_url := "https://www.google.com"; _screen_size := (1440, 900)%Z;
       _search_engine_url := "https://www.google.com"; _highlight_mouse := false;
       _playwright := Some 1%nat; _browser := Some 2%nat; _context := Some 3%nat;
       _page := Some 4%nat |}
  /\ log attached
     = [Start; Launch 1%nat launch_args true; NewContext 2%nat 1440 900; NewPage 3%nat;
        Goto 4%nat "https://www.google.com"]
  /\ listeners attached = [3%nat]
  /\ open_pages (world attached) = [4%nat]
  /\ page_url (world attached) 4%nat = "https://www.google.com".
Proof. repeat split; reflexivity. Qed.

(** ** Programs only append to the log *)

Create HintDb appends.

Section Appends.
Context (E : Engine).
Context {U : Unicode}.

Lemma appends_ret {A} (a : A) : appends (ret a).
Proof. intros s. exists []. simpl. by rewrite app_nil_r. Qed.

Lemma appends_raise {A} e : appends (@raise A e).
Proof. intros s. exists []. simpl. by rewrite app_nil_r. Qed.

Lemma appends_bind {A B} (m : M A) (k : A -> M B) :
  appends m -> (forall a, appends (k a)) -> appends (bind m k).
Proof.
  intros Hm Hk s. unfold bind.
  destruct (Hm s) as (cs1 & Hl & Hs & Hn).
  destruct (m s) as [[a|e] s1]; simpl in *.
  - destruct (Hk a s1) as (cs2 & Hl2 & Hs2 & Hn2).
    exists (cs1 ++ cs2)%list. rewrite Hl2, Hs2, Hn2, Hl, Hs, Hn.
    by rewrite app_assoc.
  - by exists cs1.
Qed.

Lemma appends_get_self : appends get_self.
Proof. intros s. exists []. simpl. by rewrite app_nil_r. Qed.

Lemma appends_attr {A} (o : option A) name : appends (attr o name).
Proof. destruct o; [apply appends_ret | apply appends_raise]. Qed.

Lemma appends_subscript {A} (l : list A) i : appends (subscript l i).
Proof. unfold subscript. destruct (getitem l i); [apply appends_raise | apply appends_ret]. Qed.

Lemma appends_read_url p : appends (read_url p).
Proof. intros s. exists []. simpl. by rewrite app_nil_r. Qed.

Lemma appends_read_viewport_size p : appends (read_viewport_size p).
Proof. intros s. exists []. simpl. by rewrite app_nil_r. Qed.

Lemma appends_call c : appends (call E c).
Proof. intros s. by exists [c]. Qed.

Lemma appends_call_screenshot p t f : appends (call_screenshot E p t f).
Proof. intros s. by exists [Screenshot p t f]. Qed.

Lemma appends_self_page name : appends (self_page name).
Proof.
  apply appends_bind; [apply appends_get_self | intros; apply appends_attr].
Qed.

Lemma appends_page_call name c : appends (page_call E name c).
Proof.
  apply appends_bind; [apply appends_self_page | intros; apply appends_call].
Qed.

Lemma appends_for_each {A} (l : list A) (body : A -> M unit) :
  (forall a, appends (body a)) -> appends (for_each l body).
Proof.
  intros Hb. induction l as [|a l IH]; simpl.
  - apply appends_ret.
  - apply appends_bind; [apply Hb | intros; apply IH].
Qed.

End Appends.

#[export] Hint Resolve appends_ret appends_raise appends_get_self appends_attr
  appends_subscript appends_read_url appends_read_viewport_size appends_call
  appends_call_screenshot appends_self_page appends_page_call : appends.

(** Decompose a program into its binds, loops and branches. *)
Ltac appends_tac :=
  repeat first
    [ progress auto with appends
    | apply appends_bind; [| intros ? ]
    | apply appends_for_each; intros ?
    | match goal with
      | |- appends (if ?b then _ else _) => destruct b
      | |- appends (match ?x with _ => _ end) => destruct x
      | |- appends (let _ := _ in _) => cbv zeta
      end ].

Section AppendsMethods.
Context (E : Engine).
Context {U : Unicode}.

Lemma appends_current_state : appends (current_state E).
Proof. unfold current_state. appends_tac. Qed.

Lemma appends_highlight_mouse x y : appends (highlight_mouse E x y).
Proof. unfold highlight_mouse. appends_tac. Qed.

Lemma appends_key_combination keys : appends (key_combination E keys).
Proof.
  unfold key_combination. pose proof appends_current_state. appends_tac.
Qed.

Lemma appends_handle_new_page q : appends (_handle_new_page E q).
Proof. unfold _handle_new_page. appends_tac. Qed.

(** Whatever the engine does, the call a program starts with is the
    next entry of the log. *)
Lemma first_page_call {A} name c (k : M A) s p :
  _page (self s) = Some p -> appends k ->
  exists rest,
    log (snd ((page_call E name c ;; k) s)) = (log s ++ c p :: rest)%list.
Proof.
  intros Hp Hk. unfold bind at 1, page_call.
  rewrite (bind_returned _ _ _ _ _ (self_page_attached name s p Hp)).
  unfold call. destruct (fault E (c p) (world s)).
  - exists []. reflexivity.
  - destruct (Hk (after E [c p] s)) as (cs & Hl & _).
    exists cs. unfold after in Hl. simpl in Hl.
    unfold after, run_calls in *. simpl in *. rewrite Hl.
    by rewrite <- app_assoc.
Qed.

End AppendsMethods.

(** ** The state snapshot (current_state) *)

Section CurrentState.
Context (E : Engine).
Context {U : Unicode}.

(** C8. With the page attached, every snapshot that [current_state]
    returns was taken after exactly three engine calls, in this order:
    the wait for the load state, the fixed wait of 500 ms and a
    screenshot of type png with [full_page] false; its URL is the
    page's URL, and its bytes the page's raster, in the world in which
    the snapshot is built.  On an engine whose calls do not raise a
    snapshot is returned. *)
Theorem current_state_waits_then_captures s p :
  _page (self s) = Some p ->
  (forall snap s',
      current_state E s = (Returned snap, s') ->
      log s' = (log s ++ [WaitForLoadState p; WaitForTimeout p 500;
                          Screenshot p "png" false])%list
      /\ url snap = page_url (world s') p
      /\ screenshot snap = pixels (world s') p)
  /\ (reliable E ->
      exists snap, current_state E s = (Returned snap, after E (capture_calls p) s)).
Proof.
  intros Hp. split.
  - intros snap s'.
    unfold current_state, page_call, self_page, get_self, attr, bind,
      call, call_screenshot, read_url, ret.
    simpl. rewrite Hp. simpl. rewrite Hp.
    destruct (fault E (WaitForLoadState p) (world s)); [discriminate|].
    destruct (fault E (WaitForTimeout p 500) _); [discriminate|].
    simpl. rewrite Hp.
    destruct (fault E (Screenshot p "png" false) _); [discriminate|].
    simpl. rewrite Hp.
    intros H. inversion H; subst; clear H. simpl.
    rewrite <- !app_assoc. auto.
  - intros Hrel. eexists. by apply current_state_ok.
Qed.

End CurrentState.

Lemma steady_reliable : reliable steady.
Proof. intros c w. reflexivity. Qed.

Lemma session_attached : _page (self session) = Some 4%nat.
Proof. reflexivity. Qed.

Lemma current_state_waits_then_captures_witness :
  _page (self session) = Some 4%nat
  /\ log (snd (current_state steady session))
     = [WaitForLoadState 4%nat; WaitForTimeout 4%nat 500; Screenshot 4%nat "png" false]
  /\ url <$> (match fst (current_state steady session) with
              | Returned snap => Some snap
              | Raised _ => None
              end) = Some "https://www.google.com".
Proof.
  split; [reflexivity|].
  destruct (current_state_waits_then_captures steady session 4%nat session_attached)
    as [Hany Hrel].
  destruct (Hrel steady_reliable) as [snap Hsnap].
  destruct (Hany _ _ Hsnap) as (Hlog & Hurl & _).
  rewrite Hsnap. simpl. split; [reflexivity|].
  rewrite Hurl. reflexivity.
Defined.

(** ** Navigation *)

Section Navigate.
Context (E : Engine).
Context {U : Unicode}.

Lemma goto_target_has_prefix url :
  startswith (goto_target url) ["http://"; "https://"] = true.
Proof.
  unfold goto_target.
  destruct (startswith url ["http://"; "https://"]) eqn:Hs; [exact Hs|].
  unfold startswith. simpl. by destruct url.
Qed.

Lemma navigate_goto_target url s :
  navigate E url s = navigate E (goto_target url) s.
Proof.
  unfold navigate. rewrite (goto_target_has_prefix url).
  unfold goto_target. by destruct (startswith url ["http://"; "https://"]).
Qed.

(** C3, as the code has it.  [navigate] prefixes "https://" exactly
    when the URL does not start with "http://" or "https://", and the
    call it issues first is the [goto] of the resulting URL on the
    attached page: navigating to "example.com" is navigating to
    "https://example.com", and a URL with one of the two prefixes goes
    through unchanged. *)
Theorem navigate_prefixes_https url s :
  (startswith url ["http://"; "https://"] = true -> goto_target url = url)
  /\ (startswith url ["http://"; "https://"] = false ->
      goto_target url = "https://" ++ url)
  /\ navigate E url s = navigate E (goto_target url) s
  /\ navigate E "example.com" s = navigate E "https://example.com" s
  /\ (forall p, _page (self s) = Some p ->
        exists rest,
          log (snd (navigate E url s)) = (log s ++ Goto p (goto_target url) :: rest)%list)
  /\ (forall p, reliable E -> _page (self s) = Some p ->
        exists snap,
          navigate E url s
          = (Returned snap,
             after E (Goto p (goto_target url) :: WaitForLoadState p :: capture_calls p) s)).
Proof.
  split; [|split; [|split; [|split; [|split]]]].
  - unfold goto_target. by intros ->.
  - unfold goto_target. by intros ->.
  - apply navigate_goto_target.
  - apply (navigate_goto_target "example.com").
  - intros p Hp. rewrite navigate_goto_target. unfold navigate.
    rewrite goto_target_has_prefix. cbn [negb].
    apply (first_page_call E "goto" (fun p => Goto p (goto_target url))); [done|].
    pose proof (appends_current_state E). appends_tac.
  - intros p Hrel Hp. rewrite navigate_goto_target. unfold navigate.
    rewrite goto_target_has_prefix. cbn [negb].
    do 2 run_step Hrel Hp.
    run_method Hrel Hp. eexists. reflexivity.
Qed.

End Navigate.

Lemma navigate_prefixes_https_witness :
  startswith "http://x" ["http://"; "https://"] = true
  /\ goto_target "http://x" = "http://x"
  /\ log (snd (navigate steady "example.com" session))
     = [Goto 4%nat "https://example.com"; WaitForLoadState 4%nat;
        WaitForLoadState 4%nat; WaitForTimeout 4%nat 500; Screenshot 4%nat "png" false].
Proof.
  split; [reflexivity|]. split.
  - apply (navigate_prefixes_https steady "http://x" session). reflexivity.
  - destruct (navigate_prefixes_https steady "example.com" session)
      as (_ & _ & _ & _ & _ & Hrun).
    destruct (Hrun 4%nat steady_reliable session_attached) as [snap ->].
    reflexivity.
Defined.

(** C3, as the spec words it, fails: "ftp://example.com" has a scheme,
    and [navigate] still puts "https://" in front of it. *)
Lemma navigate_prefixes_url_with_scheme :
  lacks_scheme "ftp://example.com" = false
  /\ scheme_of "ftp://example.com" = Some "ftp"
  /\ head (log (snd (navigate steady "ftp://example.com" session)))
     = Some (Goto 4%nat "https://ftp://example.com").
Proof. repeat split; reflexivity. Qed.

(** ** Teardown *)

Section Teardown.
Context (E : Engine).
Context {U : Unicode}.

Lemma reliable_returns_all cs w : reliable E -> returns_all E cs w.
Proof.
  intros Hrel. revert w. induction cs as [|c cs IH]; intros w; simpl; [done|].
  split; [apply Hrel | apply IH].
Qed.

(** A run of calls that all return. *)
Lemma for_each_call_returns cs s :
  returns_all E cs (world s) ->
  for_each cs (call E) s = (Returned tt, after E cs s).
Proof.
  revert s. induction cs as [|c cs IH]; intros s; simpl.
  - intros _. by rewrite after_nil.
  - intros [Hc Hrest].
    rewrite (bind_returned _ _ _ _ _ (call_ok E c s Hc)).
    rewrite (IH (after E [c] s) Hrest). by rewrite after_after.
Qed.

(** A run of calls stops at the first one that raises. *)
Lemma for_each_call_stops done c rest s e :
  returns_all E done (world s) ->
  fault E c (run_calls E done (world s)) = Some e ->
  for_each (done ++ c :: rest) (call E) s = (Raised e, after E (done ++ [c]) s).
Proof.
  revert s. induction done as [|d done IH]; intros s; simpl.
  - intros _ Hf. by rewrite (bind_raised _ _ _ _ _ (call_fault E c s e Hf)).
  - intros [Hd Hrest] Hf.
    rewrite (bind_returned _ _ _ _ _ (call_ok E d s Hd)).
    rewrite (IH (after E [d] s) Hrest Hf). by rewrite after_after.
Qed.

(** [__aexit__] is the run of its teardown calls. *)
Lemma aexit_as_sequence s :
  __aexit__ E s = for_each (teardown_calls (self s)) (call E) s.
Proof.
  destruct s as [[u0 sz u1 hl pw b c p] w l ls].
  destruct c, b, pw;
    cbv [__aexit__ teardown_calls bind get_self call ret for_each app
         self world log listeners _context _browser _playwright];
    repeat (match goal with
            | |- context [fault E ?c ?w] => destruct (fault E c w)
            end;
            cbv beta iota);
    reflexivity.
Qed.

(** C1, as the code has it.  [__aexit__] closes the context, then the
    browser, then stops the engine, each only when its handle is set: it
    is the run of those teardown calls.  When all of them return, all are
    issued, in that order.  No step is guarded against an exception:
    whichever of the calls is the first to raise, that exception leaves
    [__aexit__] right after it and none of the later calls is issued (a
    failing context close skips the browser close and the engine stop, a
    failing browser close skips the engine stop, a failing engine stop is
    raised to the caller). *)
Theorem aexit_stops_at_first_failure s :
  (reliable E -> __aexit__ E s = (Returned tt, after E (teardown_calls (self s)) s))
  /\ (forall c e,
        _context (self s) = Some c ->
        fault E (ContextClose c) (world s) = Some e ->
        __aexit__ E s = (Raised e, after E [ContextClose c] s))
  /\ (forall c b e,
        _context (self s) = Some c -> _browser (self s) = Some b ->
        fault E (ContextClose c) (world s) = None ->
        fault E (BrowserClose b) (world (after E [ContextClose c] s)) = Some e ->
        __aexit__ E s = (Raised e, after E [ContextClose c; BrowserClose b] s))
  /\ (returns_all E (teardown_calls (self s)) (world s) ->
      __aexit__ E s = (Returned tt, after E (teardown_calls (self s)) s))
  /\ (forall done c rest e,
        teardown_calls (self s) = (done ++ c :: rest)%list ->
        returns_all E done (world s) ->
        fault E c (run_calls E done (world s)) = Some e ->
        __aexit__ E s = (Raised e, after E (done ++ [c]) s)).
Proof.
  assert (Hall : returns_all E (teardown_calls (self s)) (world s) ->
                 __aexit__ E s = (Returned tt, after E (teardown_calls (self s)) s)).
  { intros Hret. rewrite aexit_as_sequence. by apply for_each_call_returns. }
  assert (Hstop : forall done c rest e,
             teardown_calls (self s) = (done ++ c :: rest)%list ->
             returns_all E done (world s) ->
             fault E c (run_calls E done (world s)) = Some e ->
             __aexit__ E s = (Raised e, after E (done ++ [c]) s)).
  { intros done c rest e Hsplit Hret Hf. rewrite aexit_as_sequence, Hsplit.
    by apply for_each_call_stops. }
  split; [|split; [|split; [|split]]].
  - intros Hrel. apply Hall. by apply reliable_returns_all.
  - intros c e Hc Hf.
    apply (Hstop [] (ContextClose c)
             (match _browser (self s) with Some b => [BrowserClose b] | None => [] end
              ++ match _playwright (self s) with Some pw => [Stop pw] | None => [] end)%list
             e); [|done|exact Hf].
    unfold teardown_calls. by rewrite Hc.
  - intros c b e Hc Hb Hf1 Hf2.
    apply (Hstop [ContextClose c] (BrowserClose b)
             (match _playwright (self s) with Some pw => [Stop pw] | None => [] end) e);
      [|by split|exact Hf2].
    unfold teardown_calls. by rewrite Hc, Hb.
  - exact Hall.
  - exact Hstop.
Qed.

End Teardown.

Lemma aexit_stops_at_first_failure_witness :
  log (snd (__aexit__ steady session)) = [ContextClose 3%nat; BrowserClose 2%nat; Stop 1%nat]
  /\ __aexit__ crashed_context session
     = (Raised (EngineError "Target page, context or browser has been closed"),
        after crashed_context [ContextClose 3%nat] session)
  /\ __aexit__ (failing is_stop (EngineError "Connection closed")) session
     = (Raised (EngineError "Connection closed"),
        after (failing is_stop (EngineError "Connection closed"))
          [ContextClose 3%nat; BrowserClose 2%nat; Stop 1%nat] session).
Proof.
  split; [|split].
  - destruct (aexit_stops_at_first_failure steady session) as (Hok & _).
    rewrite (Hok steady_reliable). reflexivity.
  - destruct (aexit_stops_at_first_failure crashed_context session) as (_ & Hc & _).
    apply Hc; reflexivity.
  - destruct (aexit_stops_at_first_failure
                (failing is_stop (EngineError "Connection closed")) session)
      as (_ & _ & _ & _ & Hstop).
    apply (Hstop [ContextClose 3%nat; BrowserClose 2%nat] (Stop 1%nat) []).
    + reflexivity.
    + simpl. auto.
    + reflexivity.
Defined.

(** C1, as the spec words it, fails: once closing the context raises,
    the browser close and the engine stop are never attempted. *)
Lemma aexit_skips_browser_and_engine :
  fst (__aexit__ crashed_context session)
  = Raised (EngineError "Target page, context or browser has been closed")
  /\ log (snd (__aexit__ crashed_context session)) = [ContextClose 3%nat]
  /\ ~ In (BrowserClose 2%nat) (log (snd (__aexit__ crashed_context session)))
  /\ ~ In (Stop 1%nat) (log (snd (__aexit__ crashed_context session))).
Proof.
  repeat split; try reflexivity; simpl; intros [H|[]]; discriminate H.
Qed.

(** ** Key chords *)

Section PythonLists.
Context {A : Type}.

Lemma slice_to_last (init : list A) (x : A) : slice_to (init ++ [x])%list (-1) = init.
Proof.
  unfold slice_to. rewrite length_app. simpl.
  replace (Z.max 0 (-1 + Z.of_nat (length init + 1))) with (Z.of_nat (length init)) by lia.
  rewrite Nat2Z.id. rewrite firstn_app, firstn_all, Nat.sub_diag. simpl.
  by rewrite app_nil_r.
Qed.

Lemma getitem_last (init : list A) (x : A) : getitem (init ++ [x])%list (-1) = inr x.
Proof.
  unfold getitem. rewrite length_app. simpl.
  replace (-1 + Z.of_nat (length init + 1)) with (Z.of_nat (length init)) by lia.
  replace (0 <=? Z.of_nat (length init)) with true by (symmetry; apply Z.leb_le; lia).
  replace (Z.of_nat (length init) <? Z.of_nat (length init + 1)) with true
    by (symmetry; apply Z.ltb_lt; lia).
  simpl. rewrite Nat2Z.id.
  rewrite nth_error_app2 by lia. by rewrite Nat.sub_diag.
Qed.

Lemma getitem_empty (i : Z) :
  getitem (@nil A) i = inl (IndexError "list index out of range").
Proof.
  unfold getitem. simpl length.
  set (j := if i <? 0 then i + Z.of_nat 0 else i).
  destruct ((0 <=? j) && (j <? Z.of_nat 0))%bool eqn:H; [|done].
  apply andb_true_iff in H as [H1 H2].
  apply Z.leb_le in H1. apply Z.ltb_lt in H2. simpl in H2. lia.
Qed.

Lemma nonempty_snoc (l : list A) : l <> [] -> exists (init : list A) (x : A), l = (init ++ [x])%list.
Proof.
  intros H. destruct (exists_last H) as (init & x & ->). by exists init, x.
Qed.

End PythonLists.

Lemma normalized_snoc {U : Unicode} init k :
  normalized (init ++ [k])
  = (normalized init ++ [dict_get PLAYWRIGHT_KEY_MAP (lower k) k])%list.
Proof. unfold normalized. by rewrite map_app. Qed.

Lemma filter_keyboard_down p ks :
  List.filter is_keyboard (map (KeyboardDown p) ks) = map (KeyboardDown p) ks.
Proof. induction ks as [|k ks IH]; simpl; [done|]. by rewrite IH. Qed.

Lemma filter_keyboard_up p ks :
  List.filter is_keyboard (map (KeyboardUp p) ks) = map (KeyboardUp p) ks.
Proof. induction ks as [|k ks IH]; simpl; [done|]. by rewrite IH. Qed.

Section KeyCombination.
Context (E : Engine).
Context {U : Unicode}.

(** The engine calls of a chord with the normalised keys [held] kept
    down around [last_key]. *)
Lemma key_combination_ok held k s p :
  reliable E -> _page (self s) = Some p ->
  let chord :=
    (map (KeyboardDown p) (normalized held)
     ++ [KeyboardPress p (dict_get PLAYWRIGHT_KEY_MAP (lower k) k)]
     ++ map (KeyboardUp p) (rev (normalized held)))%list in
  key_combination E (held ++ [k])%list s
  = (Returned {| screenshot := pixels (world (after E (chord ++ capture_calls p) s)) p;
                 url := page_url (world (after E (chord ++ capture_calls p) s)) p |},
     after E (chord ++ capture_calls p) s).
Proof.
  intros Hrel Hp chord. unfold key_combination.
  rewrite normalized_snoc, slice_to_last. cbv zeta.
  do 2 run_step Hrel Hp.
  unfold subscript. rewrite getitem_last.
  unfold bind at 1, ret.
  unfold bind at 1. rewrite (call_ok E _ _ (Hrel _ _)). rewrite after_after.
  unfold reversed. run_step Hrel Hp. run_method Hrel Hp.
  subst chord. rewrite <- !app_assoc. reflexivity.
Qed.

(** C4. For every non-empty key list K1 ... Kn, on an engine whose calls
    do not raise and with the page attached, [key_combination] returns a
    snapshot, and with [held] the keys K1 ... K(n-1) and [k] the key Kn
    the keyboard events it issues are exactly: a down for each normalised
    held key in the given order, one press of the normalised [k], and an
    up for each normalised held key in the reverse order.  The calls that
    follow are those of the snapshot. *)
Theorem key_combination_press_order keys s p :
  keys <> [] -> reliable E -> _page (self s) = Some p ->
  exists held k snap new_calls,
    keys = (held ++ [k])%list
    /\ key_combination E keys s = (Returned snap, after E new_calls s)
    /\ log (after E new_calls s) = (log s ++ new_calls)%list
    /\ new_calls
       = (map (KeyboardDown p) (normalized held)
          ++ [KeyboardPress p (dict_get PLAYWRIGHT_KEY_MAP (lower k) k)]
          ++ map (KeyboardUp p) (rev (normalized held))
          ++ capture_calls p)%list
    /\ List.filter is_keyboard new_calls
       = (map (KeyboardDown p) (normalized held)
          ++ [KeyboardPress p (dict_get PLAYWRIGHT_KEY_MAP (lower k) k)]
          ++ map (KeyboardUp p) (rev (normalized held)))%list.
Proof.
  intros Hkeys Hrel Hp.
  destruct (nonempty_snoc keys Hkeys) as (held & k & ->).
  exists held, k. do 2 eexists. split; [reflexivity|]. split; [|split; [|split]].
  - rewrite (key_combination_ok held k s p Hrel Hp). cbv zeta.
    rewrite <- !app_assoc. reflexivity.
  - reflexivity.
  - simpl. reflexivity.
  - rewrite !List.filter_app, filter_keyboard_down, filter_keyboard_up. simpl.
    by rewrite app_nil_r.
Qed.

(** C10. With the page attached, [key_combination] of the empty list
    raises IndexError at [keys[-1]] with nothing issued and nothing
    changed; for a non-empty list the subscript [keys[-1]] is in bounds
    (and the slice [keys[:-1]] cannot raise), so that on an engine whose
    calls do not raise a snapshot is returned. *)
Theorem key_combination_needs_a_key s p :
  _page (self s) = Some p ->
  key_combination E [] s = (Raised (IndexError "list index out of range"), s)
  /\ (forall keys, keys <> [] ->
        exists k, getitem (normalized keys) (-1) = inr k)
  /\ (forall keys, keys <> [] -> reliable E ->
        exists snap s', key_combination E keys s = (Returned snap, s')).
Proof.
  intros Hp. split; [|split].
  - unfold key_combination. cbv zeta.
    change (slice_to (normalized []) (-1)) with (@nil string).
    cbn [for_each]. rewrite ret_bind.
    rewrite (bind_returned _ _ _ _ _ (self_page_attached "keyboard" s p Hp)).
    unfold subscript. change (normalized []) with (@nil string).
    by rewrite getitem_empty.
  - intros keys Hk. destruct (nonempty_snoc keys Hk) as (init & x & ->).
    rewrite normalized_snoc, getitem_last. by eexists.
  - intros keys Hk Hrel. destruct (nonempty_snoc keys Hk) as (init & x & ->).
    rewrite (key_combination_ok init x s p Hrel Hp). by do 2 eexists.
Qed.

End KeyCombination.

(** A boolean test that holds along the fold of a map holds of each of
    its entries. *)
Lemma map_fold_all (P : string -> string -> bool) (m : gmap string string) :
  map_fold (fun name v ok => (ok && P name v)%bool) true m = true ->
  forall name v, m !! name = Some v -> P name v = true.
Proof.
  induction m as [|name' v' m Hfresh Hfold IH] using map_first_key_ind.
  - intros _ name v Hin. by rewrite lookup_empty in Hin.
  - rewrite map_fold_insert_first_key by done.
    intros Hall name v Hin. apply andb_true_iff in Hall as [Hm Hp].
    destruct (decide (name' = name)) as [->|Hne].
    + rewrite lookup_insert_eq in Hin. by inversion Hin; subst.
    + rewrite lookup_insert_ne in Hin by done. by apply IH.
Qed.

(** The names of the map are lower-case already, and the identifiers it
    produces are left alone when they come back as names. *)
Lemma key_map_shape {U : Unicode} name v :
  PLAYWRIGHT_KEY_MAP !! name = Some v ->
  lower name = name /\ dict_get PLAYWRIGHT_KEY_MAP (lower v) v = v.
Proof.
  intros Hin.
  assert (H : (String.eqb (lower name) name
               && String.eqb (dict_get PLAYWRIGHT_KEY_MAP (lower v) v) v)%bool = true).
  { revert name v Hin.
    apply (map_fold_all
             (fun n w => (String.eqb (lower n) n
                          && String.eqb (dict_get PLAYWRIGHT_KEY_MAP (lower w) w) w)%bool)).
    vm_compute. reflexivity. }
  apply andb_true_iff in H as [H1 H2].
  split; by apply String.eqb_eq.
Qed.

(** C9. For every key name [k], whatever [str.lower] gives for text
    outside ASCII: the key that replaces [k] is looked up under the
    lower-cased [k]; a name whose lower-cased form is in the map becomes
    the mapped identifier, the same for every spelling with that
    lower-cased form (the names of the map are themselves lower-case, so
    each of them and each of its spellings is found), and a name whose
    lower-cased form is not in the map stays exactly as written; the
    identifiers the map produces are themselves left unchanged. *)
Theorem key_lookup_ignores_case {U : Unicode} k :
  (forall v, PLAYWRIGHT_KEY_MAP !! lower k = Some v -> normalized [k] = [v])
  /\ (PLAYWRIGHT_KEY_MAP !! lower k = None -> normalized [k] = [k])
  /\ (forall k' v, lower k' = lower k -> PLAYWRIGHT_KEY_MAP !! lower k = Some v ->
        normalized [k'] = [v])
  /\ (forall v, PLAYWRIGHT_KEY_MAP !! k = Some v ->
        normalized [k] = [v] /\ normalized [v] = [v]
        /\ forall k', lower k' = k -> normalized [k'] = [v]).
Proof.
  unfold normalized, dict_get. cbn [map]. split; [|split; [|split]].
  - by intros v ->.
  - by intros ->.
  - intros k' v -> ->. done.
  - intros v Hin. destruct (key_map_shape k v Hin) as [Hlow Hfix].
    split; [by rewrite Hlow, Hin|]. split.
    + unfold dict_get in Hfix. by rewrite Hfix.
    + intros k' <-. by rewrite Hin.
Qed.

Example normalized_enter :
  normalized ["ENTER"; "Enter"; "enter"; "Return"] = ["Enter"; "Enter"; "Enter"; "Enter"].
Proof. vm_compute. reflexivity. Qed.

Example normalized_passthrough :
  normalized ["Control"; "A"; "ArrowLeft"; "F13"] = ["ControlOrMeta"; "A"; "ArrowLeft"; "F13"].
Proof. vm_compute. reflexivity. Qed.

Lemma three_keys : ["Control"; "Shift"; "T"] <> [].
Proof. discriminate. Qed.

Lemma key_combination_press_order_witness :
  List.filter is_keyboard
    (log (snd (key_combination steady ["Control"; "Shift"; "T"] session)))
  = [KeyboardDown 4%nat "ControlOrMeta"; KeyboardDown 4%nat "Shift";
     KeyboardPress 4%nat "T";
     KeyboardUp 4%nat "Shift"; KeyboardUp 4%nat "ControlOrMeta"].
Proof.
  destruct (key_combination_press_order steady ["Control"; "Shift"; "T"] session 4%nat
              three_keys steady_reliable session_attached)
    as (held & k & snap & cs & Hkeys & Hrun & Hlog & _ & Hkb).
  rewrite Hrun. cbn [snd]. rewrite Hlog. change (log session) with (@nil Call).
  cbn [app]. rewrite Hkb.
  change ["Control"; "Shift"; "T"] with (["Control"; "Shift"] ++ ["T"])%list in Hkeys.
  apply app_inj_tail in Hkeys as [<- <-]. vm_compute. reflexivity.
Defined.

Lemma key_combination_needs_a_key_witness :
  key_combination steady [] session
  = (Raised (IndexError "list index out of range"), session).
Proof.
  apply (key_combination_needs_a_key steady session 4%nat session_attached).
Defined.

(** ** Scrolling *)

Section NeverReturns.

Lemma never_returns_raise {A} e : never_returns (@raise A e).
Proof. intros s. by exists e. Qed.

Lemma never_returns_bind_l {A B} (m : M A) (k : A -> M B) :
  never_returns m -> never_returns (bind m k).
Proof.
  intros Hm s. destruct (Hm s) as [e He]. unfold bind.
  destruct (m s) as [[a|e'] s']; simpl in *; [discriminate|]. by exists e'.
Qed.

Lemma never_returns_bind_r {A B} (m : M A) (k : A -> M B) :
  (forall a, never_returns (k a)) -> never_returns (bind m k).
Proof.
  intros Hk s. unfold bind.
  destruct (m s) as [[a|e] s']; [apply Hk | by exists e].
Qed.

End NeverReturns.

Lemma outside_directions direction :
  ~ In direction ["up"; "down"; "left"; "right"] ->
  String.eqb direction "up" = false /\ String.eqb direction "down" = false
  /\ String.eqb direction "left" = false /\ String.eqb direction "right" = false.
Proof.
  intros H. repeat split; apply String.eqb_neq; intros ->; apply H; simpl; auto.
Qed.

Lemma filter_wheel_scroll_at_calls on p x y dx dy :
  List.filter is_wheel (scroll_at_calls on p x y dx dy) = [MouseWheel p dx dy].
Proof. unfold scroll_at_calls, highlight_calls. by destruct on. Qed.

(** [f"{sign}{n}"] with the minus sign is the decimal of the negated
    amount as soon as the amount is positive. *)
Lemma minus_str n : 0 < n -> "-" ++ str n = str (- n).
Proof. intros H. destruct n as [|q|q]; [lia | reflexivity | lia]. Qed.

Section Scroll.
Context (E : Engine).
Context {U : Unicode}.

Lemma screen_size_attached s p :
  _page (self s) = Some p ->
  exists height, screen_size s = (Returned (screen_width s p, height), s).
Proof.
  intros Hp. unfold screen_size, screen_width.
  rewrite (bind_returned _ _ _ _ _ (self_page_attached _ s p Hp)).
  unfold bind, read_viewport_size, get_self, ret.
  destruct (viewport_size (world s) p) as [[w h]|]; [by exists h|].
  exists (snd (_screen_size (self s))). by destruct (_screen_size (self s)).
Qed.

Lemma scroll_at_ok x y direction magnitude dx dy s p :
  reliable E -> _page (self s) = Some p ->
  (String.eqb direction "up" = true /\ (dx, dy) = (0, - default 800 magnitude)
   \/ String.eqb direction "down" = true /\ (dx, dy) = (0, default 800 magnitude)
   \/ String.eqb direction "left" = true /\ (dx, dy) = (- default 800 magnitude, 0)
   \/ String.eqb direction "right" = true /\ (dx, dy) = (default 800 magnitude, 0)) ->
  exists snap,
    scroll_at E x y direction magnitude s
    = (Returned snap,
       after E (scroll_at_calls (_highlight_mouse (self s)) p x y dx dy) s).
Proof.
  intros Hrel Hp Hd. unfold scroll_at. cbv zeta.
  run_method Hrel Hp. do 2 run_step Hrel Hp.
  assert ((if String.eqb direction "up" then ret (0, - default 800 magnitude)
           else if String.eqb direction "down" then ret (0, default 800 magnitude)
           else if String.eqb direction "left" then ret (- default 800 magnitude, 0)
           else if String.eqb direction "right" then ret (default 800 magnitude, 0)
           else raise (ValueError ["Unsupported direction: "; direction]))
          = ret (dx, dy)) as ->.
  { destruct Hd as [[Hd ->]|[[Hd ->]|[[Hd ->]|[Hd ->]]]];
      apply String.eqb_eq in Hd; subst direction; reflexivity. }
  rewrite ret_bind. cbn [fst snd].
  do 2 run_step Hrel Hp. run_method Hrel Hp.
  eexists. unfold scroll_at_calls. rewrite <- !app_assoc. reflexivity.
Qed.

(** C7. On an engine whose calls do not raise and with the page
    attached, [scroll_at] with magnitude m (800 when none is given)
    returns a snapshot after issuing exactly one wheel event, whose
    delta is (0, -m) for "up", (0, m) for "down", (-m, 0) for "left"
    and (m, 0) for "right"; with no magnitude "up" gives (0, -800) and
    "right" gives (800, 0). *)
Theorem scroll_at_wheel_delta x y magnitude s p :
  reliable E -> _page (self s) = Some p ->
  let m := default 800 magnitude in
  let issues direction dx dy :=
    exists snap new_calls,
      scroll_at E x y direction magnitude s = (Returned snap, after E new_calls s)
      /\ new_calls = scroll_at_calls (_highlight_mouse (self s)) p x y dx dy
      /\ List.filter is_wheel new_calls = [MouseWheel p dx dy] in
  issues "up" 0 (- m) /\ issues "down" 0 m
  /\ issues "left" (- m) 0 /\ issues "right" m 0
  /\ (magnitude = None -> issues "up" 0 (-800) /\ issues "right" 800 0).
Proof.
  intros Hrel Hp m issues.
  assert (Hup : issues "up" 0 (- m)).
  { destruct (scroll_at_ok x y "up" magnitude 0 (- m) s p Hrel Hp) as [snap H];
      [by left|].
    exists snap. eexists. split; [exact H|]. split; [done|].
    apply filter_wheel_scroll_at_calls. }
  assert (Hdown : issues "down" 0 m).
  { destruct (scroll_at_ok x y "down" magnitude 0 m s p Hrel Hp) as [snap H];
      [by right; left|].
    exists snap. eexists. split; [exact H|]. split; [done|].
    apply filter_wheel_scroll_at_calls. }
  assert (Hleft : issues "left" (- m) 0).
  { destruct (scroll_at_ok x y "left" magnitude (- m) 0 s p Hrel Hp) as [snap H];
      [by right; right; left|].
    exists snap. eexists. split; [exact H|]. split; [done|].
    apply filter_wheel_scroll_at_calls. }
  assert (Hright : issues "right" m 0).
  { destruct (scroll_at_ok x y "right" magnitude m 0 s p Hrel Hp) as [snap H];
      [by right; right; right|].
    exists snap. eexists. split; [exact H|]. split; [done|].
    apply filter_wheel_scroll_at_calls. }
  repeat split; try assumption.
  - subst m. rewrite H in Hup. exact Hup.
  - subst m. rewrite H in Hright. exact Hright.
Qed.

(** C5. For a direction that is none of "up", "down", "left", "right":
    [scroll_document] raises ValueError carrying the direction, with
    nothing issued; [scroll_at] never returns a snapshot, whatever the
    engine does, and once its pointer move and wait have gone through it
    raises ValueError carrying the direction, with no wheel event
    issued. *)
Theorem unsupported_direction_raises direction s :
  ~ In direction ["up"; "down"; "left"; "right"] ->
  scroll_document E direction s
  = (Raised (ValueError ["Unsupported direction: "; direction]), s)
  /\ (forall x y magnitude, never_returns (scroll_at E x y direction magnitude))
  /\ (forall x y magnitude p,
        reliable E -> _page (self s) = Some p ->
        scroll_at E x y direction magnitude s
        = (Raised (ValueError ["Unsupported direction: "; direction]),
           after E (highlight_calls (_highlight_mouse (self s)) p x y
                    ++ [MouseMove p x y; WaitForLoadState p]) s)).
Proof.
  intros Hout. destruct (outside_directions direction Hout) as (Hu & Hd & Hl & Hr).
  split; [|split].
  - unfold scroll_document, contains. cbn [existsb].
    by rewrite Hd, Hu, Hl, Hr.
  - intros x y magnitude. unfold scroll_at. cbv zeta. rewrite Hu, Hd, Hl, Hr.
    do 3 (apply never_returns_bind_r; intros ?).
    apply never_returns_bind_l, never_returns_raise.
  - intros x y magnitude p Hrel Hp. unfold scroll_at. cbv zeta.
    rewrite Hu, Hd, Hl, Hr.
    run_method Hrel Hp. do 2 run_step Hrel Hp.
    rewrite <- app_assoc. reflexivity.
Qed.

(** The whole run of a horizontal document scroll. *)
Lemma horizontal_document_scroll_ok direction s p :
  reliable E -> _page (self s) = Some p ->
  runs E (_horizontal_document_scroll E direction)
       (Evaluate p ("window.scrollBy("
                    ++ ((if String.eqb direction "left" then "-" else EmptyString)
                        ++ str (screen_width s p / 2))
                    ++ ", 0);")
        :: WaitForLoadState p :: capture_calls p) s.
Proof.
  intros Hrel Hp. unfold runs, _horizontal_document_scroll.
  destruct (screen_size_attached s p Hp) as [h Hsz].
  rewrite (bind_returned _ _ _ _ _ Hsz). cbv zeta. cbn [fst].
  do 2 run_step Hrel Hp. run_method Hrel Hp. by eexists.
Qed.

(** Whatever the engine does, a horizontal document scroll issues a
    non-empty prefix of its call list: it stops at the first call that
    raises and issues no other call. *)
Lemma horizontal_document_scroll_prefix direction s p :
  _page (self s) = Some p ->
  exists k,
    log (snd (_horizontal_document_scroll E direction s))
    = (log s
       ++ firstn (S k)
            (Evaluate p ("window.scrollBy("
                         ++ ((if String.eqb direction "left" then "-" else EmptyString)
                             ++ str (screen_width s p / 2))
                         ++ ", 0);")
             :: WaitForLoadState p :: capture_calls p))%list.
Proof.
  intros Hp. unfold _horizontal_document_scroll.
  destruct (screen_size_attached s p Hp) as [h Hsz].
  rewrite (bind_returned _ _ _ _ _ Hsz). cbv zeta. cbn [fst].
  set (script := "window.scrollBy(" ++ _ ++ ", 0);").
  destruct (fault E (Evaluate p script) (world s)) as [e|] eqn:H1.
  { exists 0%nat.
    by rewrite (bind_raised _ _ _ _ _
                  (page_call_fault E "evaluate" (fun p => Evaluate p script) s p e Hp H1)). }
  rewrite (bind_returned _ _ _ _ _
             (page_call_ok E "evaluate" (fun p => Evaluate p script) s p Hp H1)).
  set (s1 := after E [Evaluate p script] s).
  destruct (fault E (WaitForLoadState p) (world s1)) as [e|] eqn:H2.
  { exists 1%nat.
    rewrite (bind_raised _ _ _ _ _
               (page_call_fault E "wait_for_load_state" WaitForLoadState s1 p e Hp H2)).
    subst s1. rewrite after_after. reflexivity. }
  rewrite (bind_returned _ _ _ _ _
             (page_call_ok E "wait_for_load_state" WaitForLoadState s1 p Hp H2)).
  subst s1. rewrite after_after.
  set (s2 := after E _ s). unfold current_state.
  destruct (fault E (WaitForLoadState p) (world s2)) as [e|] eqn:H3.
  { exists 2%nat.
    rewrite (bind_raised _ _ _ _ _
               (page_call_fault E "wait_for_load_state" WaitForLoadState s2 p e Hp H3)).
    subst s2. rewrite after_after. reflexivity. }
  rewrite (bind_returned _ _ _ _ _
             (page_call_ok E "wait_for_load_state" WaitForLoadState s2 p Hp H3)).
  subst s2. rewrite after_after. set (s3 := after E _ s).
  destruct (fault E (WaitForTimeout p 500) (world s3)) as [e|] eqn:H4.
  { exists 3%nat.
    rewrite (bind_raised _ _ _ _ _
               (page_call_fault E "wait_for_timeout" (fun p => WaitForTimeout p 500)
                  s3 p e Hp H4)).
    subst s3. rewrite after_after. reflexivity. }
  rewrite (bind_returned _ _ _ _ _
             (page_call_ok E "wait_for_timeout" (fun p => WaitForTimeout p 500)
                s3 p Hp H4)).
  subst s3. rewrite after_after. set (s4 := after E _ s).
  rewrite (bind_returned _ _ _ _ _ (self_page_attached "screenshot" s4 p Hp)).
  exists 4%nat.
  destruct (fault E (Screenshot p "png" false) (world s4)) as [e|] eqn:H5.
  - unfold bind at 1, call_screenshot. rewrite H5.
    subst s4. cbn [snd log after]. by rewrite <- app_assoc.
  - rewrite (bind_returned _ _ _ _ _ (call_screenshot_ok E p "png" false s4 H5)).
    subst s4. rewrite after_after.
    match goal with
    | |- context [bind (self_page ?n) ?k ?s5] =>
        rewrite (bind_returned (self_page n) k s5 _ _ (self_page_attached n s5 p Hp))
    end.
    reflexivity.
Qed.

(** The whole run of [scroll_document] in each of its four directions. *)
Lemma scroll_document_ok s p :
  reliable E -> _page (self s) = Some p ->
  runs E (scroll_document E "up") (KeyboardPress p "PageUp" :: capture_calls p) s
  /\ runs E (scroll_document E "down") (KeyboardPress p "PageDown" :: capture_calls p) s
  /\ runs E (scroll_document E "left")
          (Evaluate p ("window.scrollBy(-" ++ str (screen_width s p / 2) ++ ", 0);")
           :: WaitForLoadState p :: capture_calls p) s
  /\ runs E (scroll_document E "right")
          (Evaluate p ("window.scrollBy(" ++ str (screen_width s p / 2) ++ ", 0);")
           :: WaitForLoadState p :: capture_calls p) s.
Proof.
  intros Hrel Hp. repeat apply conj.
  - eexists. apply (key_combination_ok E [] "PageUp" s p Hrel Hp).
  - eexists. apply (key_combination_ok E [] "PageDown" s p Hrel Hp).
  - apply (horizontal_document_scroll_ok "left" s p Hrel Hp).
  - apply (horizontal_document_scroll_ok "right" s p Hrel Hp).
Qed.

(** C6. With the page attached, [scroll_document] of "up" and "down"
    is the key chord of PageUp and of PageDown, whose first call is the
    press of that key.  For "left" and "right" its first call evaluates
    the script window.scrollBy(a, 0); where a is the decimal of the
    screen width integer-divided by 2, with a minus sign in front for
    "left": the amount -(width / 2) for "left" as soon as the width is
    at least 2.  At width 1440 the scripts are window.scrollBy(-720, 0);
    and window.scrollBy(720, 0);.  Whatever the engine does, the calls a
    horizontal scroll issues are a non-empty prefix of: that one script
    evaluation, a wait for the load state, the capture; nothing else is
    issued.  When every call returns, each direction returns a snapshot
    after exactly its list: the one key press and the capture for "up"
    and "down", the one script evaluation, the wait and the capture for
    "left" and "right". *)
Theorem scroll_document_half_width s p :
  _page (self s) = Some p ->
  let first_call direction c :=
    exists rest,
      log (snd (scroll_document E direction s)) = (log s ++ c :: rest)%list in
  let half := screen_width s p / 2 in
  scroll_document E "up" s = key_combination E ["PageUp"] s
  /\ scroll_document E "down" s = key_combination E ["PageDown"] s
  /\ first_call "up" (KeyboardPress p "PageUp")
  /\ first_call "down" (KeyboardPress p "PageDown")
  /\ first_call "left" (Evaluate p ("window.scrollBy(-" ++ str half ++ ", 0);"))
  /\ first_call "right" (Evaluate p ("window.scrollBy(" ++ str half ++ ", 0);"))
  /\ (2 <= screen_width s p ->
      first_call "left" (Evaluate p ("window.scrollBy(" ++ str (- half) ++ ", 0);"))
      /\ 0 < half)
  /\ (screen_width s p = 1440 ->
      first_call "left" (Evaluate p "window.scrollBy(-720, 0);")
      /\ first_call "right" (Evaluate p "window.scrollBy(720, 0);"))
  /\ (exists k,
        log (snd (scroll_document E "left" s))
        = (log s
           ++ firstn (S k)
                (Evaluate p ("window.scrollBy(-" ++ str half ++ ", 0);")
                 :: WaitForLoadState p :: capture_calls p))%list)
  /\ (exists k,
        log (snd (scroll_document E "right" s))
        = (log s
           ++ firstn (S k)
                (Evaluate p ("window.scrollBy(" ++ str half ++ ", 0);")
                 :: WaitForLoadState p :: capture_calls p))%list)
  /\ (reliable E ->
      runs E (scroll_document E "up") (KeyboardPress p "PageUp" :: capture_calls p) s
      /\ runs E (scroll_document E "down") (KeyboardPress p "PageDown" :: capture_calls p) s
      /\ runs E (scroll_document E "left")
              (Evaluate p ("window.scrollBy(-" ++ str half ++ ", 0);")
               :: WaitForLoadState p :: capture_calls p) s
      /\ runs E (scroll_document E "right")
              (Evaluate p ("window.scrollBy(" ++ str half ++ ", 0);")
               :: WaitForLoadState p :: capture_calls p) s
      /\ (screen_width s p = 1440 ->
          runs E (scroll_document E "left")
               (Evaluate p "window.scrollBy(-720, 0);"
                :: WaitForLoadState p :: capture_calls p) s
          /\ runs E (scroll_document E "right")
                  (Evaluate p "window.scrollBy(720, 0);"
                   :: WaitForLoadState p :: capture_calls p) s)).
Proof.
  intros Hp first_call half.
  assert (Hkey : forall k, exists rest,
             log (snd (key_combination E [k] s))
             = (log s ++ KeyboardPress p (dict_get PLAYWRIGHT_KEY_MAP (lower k) k)
                  :: rest)%list).
  { intros k. unfold key_combination. cbv zeta.
    change (normalized [k]) with [dict_get PLAYWRIGHT_KEY_MAP (lower k) k].
    change (slice_to [dict_get PLAYWRIGHT_KEY_MAP (lower k) k] (-1)) with (@nil string).
    change (reversed []) with (@nil string).
    cbn [for_each]. rewrite ret_bind.
    rewrite (bind_returned _ _ _ _ _ (self_page_attached _ s p Hp)).
    unfold subscript.
    change (getitem [dict_get PLAYWRIGHT_KEY_MAP (lower k) k] (-1))
      with (@inr Exn _ (dict_get PLAYWRIGHT_KEY_MAP (lower k) k)).
    cbv beta iota. rewrite ret_bind.
    pose proof (appends_current_state E) as Hcs.
    assert (Hk : appends (for_each (@nil string)
                            (fun key => page_call E "keyboard"
                                          (fun p => KeyboardUp p key)) ;;
                          current_state E)) by appends_tac.
    unfold bind at 1, call.
    destruct (fault E _ (world s)).
    - by exists [].
    - destruct (Hk (after E [KeyboardPress p (dict_get PLAYWRIGHT_KEY_MAP (lower k) k)] s))
        as (cs & Hl & _).
      exists cs. unfold after, run_calls in Hl. simpl in Hl. cbn [for_each] in *.
      rewrite Hl. by rewrite <- app_assoc. }
  assert (Hside : forall direction sign,
             contains direction ["left"; "right"] = true ->
             String.eqb direction "down" = false -> String.eqb direction "up" = false ->
             (if String.eqb direction "left" then "-" else EmptyString) = sign ->
             first_call direction
               (Evaluate p ("window.scrollBy(" ++ (sign ++ str half) ++ ", 0);"))).
  { intros direction sign Hin Hd Hu Hsign. unfold first_call, scroll_document.
    rewrite Hd, Hu, Hin. unfold _horizontal_document_scroll.
    destruct (screen_size_attached s p Hp) as [h Hsz].
    rewrite (bind_returned _ _ _ _ _ Hsz). cbv zeta. cbn [fst]. rewrite Hsign.
    apply (first_page_call E "evaluate"
             (fun p => Evaluate p ("window.scrollBy(" ++ (sign ++ str half) ++ ", 0);")));
      [done|].
    pose proof (appends_current_state E). appends_tac. }
  assert (Hleft : first_call "left"
                    (Evaluate p ("window.scrollBy(-" ++ str half ++ ", 0);")))
    by (apply (Hside "left" "-"); reflexivity).
  assert (Hright : first_call "right"
                     (Evaluate p ("window.scrollBy(" ++ str half ++ ", 0);")))
    by (apply (Hside "right" EmptyString); reflexivity).
  split; [reflexivity|]. split; [reflexivity|].
  split; [apply (Hkey "PageUp")|]. split; [apply (Hkey "PageDown")|].
  split; [exact Hleft|]. split; [exact Hright|].
  split; [|split; [|split; [|split]]].
  - intros Hw. assert (0 < half) as Hpos.
    { subst half. apply Z.div_str_pos. lia. }
    split; [|exact Hpos]. rewrite <- (minus_str half Hpos). exact Hleft.
  - intros Hw. subst half. rewrite Hw in Hleft, Hright. split; assumption.
  - exact (horizontal_document_scroll_prefix "left" s p Hp).
  - exact (horizontal_document_scroll_prefix "right" s p Hp).
  - intros Hrel.
    destruct (scroll_document_ok s p Hrel Hp) as (Hu & Hd & Hl & Hr).
    split; [exact Hu|]. split; [exact Hd|]. split; [exact Hl|]. split; [exact Hr|].
    intros Hw. subst half. rewrite Hw in Hl, Hr. split; assumption.
Qed.

End Scroll.

Lemma scroll_at_wheel_delta_witness :
  log (snd (scroll_at steady 100 200 "up" None session))
  = [MouseMove 4%nat 100 200; WaitForLoadState 4%nat; MouseWheel 4%nat 0 (-800);
     WaitForLoadState 4%nat;
     WaitForLoadState 4%nat; WaitForTimeout 4%nat 500; Screenshot 4%nat "png" false]
  /\ List.filter is_wheel (log (snd (scroll_at steady 100 200 "right" (Some 300) session)))
     = [MouseWheel 4%nat 300 0].
Proof.
  split.
  - destruct (scroll_at_wheel_delta steady 100 200 None session 4%nat
                steady_reliable session_attached) as (_ & _ & _ & _ & Hdef).
    destruct (Hdef eq_refl) as [(snap & cs & Hrun & Hcs & _) _].
    rewrite Hrun, Hcs. reflexivity.
  - destruct (scroll_at_wheel_delta steady 100 200 (Some 300) session 4%nat
                steady_reliable session_attached) as (_ & _ & _ & Hright & _).
    destruct Hright as (snap & cs & Hrun & _ & Hwheel).
    rewrite Hrun. exact Hwheel.
Defined.

Lemma diagonal_is_no_direction : ~ In "diagonal" ["up"; "down"; "left"; "right"].
Proof. simpl. intros [H|[H|[H|[H|[]]]]]; discriminate H. Qed.

Lemma unsupported_direction_raises_witness :
  scroll_document steady "diagonal" session
  = (Raised (ValueError ["Unsupported direction: "; "diagonal"]), session)
  /\ scroll_at steady 100 200 "diagonal" None session
     = (Raised (ValueError ["Unsupported direction: "; "diagonal"]),
        after steady [MouseMove 4%nat 100 200; WaitForLoadState 4%nat] session).
Proof.
  destruct (unsupported_direction_raises steady "diagonal" session
              diagonal_is_no_direction) as (Hdoc & _ & Hat).
  split; [exact Hdoc|].
  apply (Hat 100 200 None 4%nat steady_reliable session_attached).
Defined.

Lemma scroll_document_half_width_witness :
  screen_width session 4%nat = 1440
  /\ (exists rest,
        log (snd (scroll_document steady "left" session))
        = Evaluate 4%nat "window.scrollBy(-720, 0);" :: rest)
  /\ (exists rest,
        log (snd (scroll_document steady "right" session))
        = Evaluate 4%nat "window.scrollBy(720, 0);" :: rest)
  /\ log (snd (scroll_document steady "left" session))
     = [Evaluate 4%nat "window.scrollBy(-720, 0);"; WaitForLoadState 4%nat;
        WaitForLoadState 4%nat; WaitForTimeout 4%nat 500; Screenshot 4%nat "png" false]
  /\ log (snd (scroll_document steady "right" session))
     = [Evaluate 4%nat "window.scrollBy(720, 0);"; WaitForLoadState 4%nat;
        WaitForLoadState 4%nat; WaitForTimeout 4%nat 500; Screenshot 4%nat "png" false].
Proof.
  split; [reflexivity|].
  destruct (scroll_document_half_width steady session 4%nat session_attached)
    as (_ & _ & _ & _ & _ & _ & _ & Hw & _ & _ & Hruns).
  destruct (Hw eq_refl) as [Hl Hr].
  destruct (Hruns steady_reliable) as (_ & _ & _ & _ & Hwide).
  destruct (Hwide eq_refl) as [[snapl Hleft] [snapr Hright]].
  split; [exact Hl|]. split; [exact Hr|].
  rewrite Hleft, Hright. split; reflexivity.
Defined.

(** ** Popups *)

Lemma steady_conforming : conforming steady.
Proof. split; intros; simpl; try reflexivity. unfold set_url. by rewrite Nat.eqb_refl. Qed.

Section Popup.
Context (E : Engine).
Context {U : Unicode}.

(** What [_handle_new_page] does when its two calls go through. *)
Lemma handle_new_page_ok q s p :
  reliable E -> _page (self s) = Some p ->
  _handle_new_page E q s
  = (Returned tt, after E [PageClose q; Goto p (page_url (world s) q)] s).
Proof.
  intros Hrel Hp. unfold _handle_new_page.
  unfold bind at 1, read_url.
  unfold bind at 1. rewrite (call_ok E _ _ (Hrel _ _)).
  run_step Hrel Hp. reflexivity.
Qed.

(** [__aenter__] leaves the object attached to the objects the engine
    returned and the popup handler registered on the new context. *)
Lemma aenter_attaches s :
  reliable E ->
  exists s' c p,
    __aenter__ E s = (Returned tt, s')
    /\ _context (self s') = Some c /\ _page (self s') = Some p
    /\ listeners s' = (listeners s ++ [c])%list.
Proof.
  intros Hrel. unfold __aenter__.
  erewrite bind_returned by (apply call_new_ok, Hrel).
  erewrite bind_returned by reflexivity.
  erewrite bind_returned by (apply call_new_ok, Hrel).
  erewrite bind_returned by reflexivity.
  erewrite bind_returned by reflexivity.
  erewrite bind_returned by (apply call_new_ok, Hrel).
  erewrite bind_returned by reflexivity.
  erewrite bind_returned by (apply call_new_ok, Hrel).
  erewrite bind_returned by reflexivity.
  erewrite bind_returned by reflexivity.
  erewrite bind_returned by (apply page_call_ok; [reflexivity | apply Hrel]).
  erewrite bind_returned by reflexivity.
  erewrite bind_returned by reflexivity.
  erewrite bind_returned by reflexivity.
  do 3 eexists. split; [reflexivity|]. cbn. auto.
Qed.

(** C2. In an attached session whose context carries the registered
    handler, on an engine that keeps Playwright's contract for
    [close] and [goto] and whose calls do not raise: the "page" event
    for a newly opened page [q] makes the handler close [q] and then
    send the original page to the URL [q] had, so [q] is gone from the
    context's pages and the original page shows that URL; when the
    pages were the original one and [q], exactly the original one is
    left. *)
Theorem popup_collapses_into_page s c p q :
  reliable E -> conforming E ->
  _page (self s) = Some p -> listeners s = [c] -> q <> p ->
  exists s',
    emit_page E c q s = (Returned tt, s')
    /\ log s' = (log s ++ [PageClose q; Goto p (page_url (world s) q)])%list
    /\ open_pages (world s') = remove_page q (open_pages (world s))
    /\ page_url (world s') p = page_url (world s) q
    /\ (open_pages (world s) = [p; q] -> open_pages (world s') = [p]).
Proof.
  intros Hrel [Hclose Hland Hkeep] Hp Hl Hne.
  unfold emit_page. unfold bind at 1. rewrite Hl. cbn [List.filter].
  rewrite Nat.eqb_refl. cbn [for_each].
  rewrite (bind_returned _ _ _ _ _ (handle_new_page_ok q s p Hrel Hp)).
  eexists. split; [reflexivity|].
  assert (Hopen : open_pages (world (after E [PageClose q; Goto p (page_url (world s) q)] s))
                  = remove_page q (open_pages (world s))).
  { unfold after, run_calls. simpl. by rewrite Hkeep, Hclose. }
  split; [reflexivity|]. split; [exact Hopen|]. split.
  - unfold after, run_calls. simpl. apply Hland.
  - intros Hpages. rewrite Hopen, Hpages. unfold remove_page. simpl.
    rewrite Nat.eqb_refl. simpl.
    destruct (Nat.eqb p q) eqn:Hpq; [|reflexivity].
    apply Nat.eqb_eq in Hpq. congruence.
Qed.

End Popup.

Lemma popup_collapses_into_page_witness :
  let s := with_popup 5%nat "https://example.org/help" attached in
  open_pages (world s) = [4%nat; 5%nat]
  /\ exists s',
       emit_page steady 3%nat 5%nat s = (Returned tt, s')
       /\ open_pages (world s') = [4%nat]
       /\ page_url (world s') 4%nat = "https://example.org/help".
Proof.
  intros s. split; [reflexivity|].
  destruct (popup_collapses_into_page steady s 3%nat 4%nat 5%nat
              steady_reliable steady_conforming eq_refl eq_refl)
    as (s' & Hrun & _ & _ & Hurl & Hone); [discriminate|].
  exists s'. split; [exact Hrun|]. split; [by apply Hone|].
  rewrite Hurl. reflexivity.
Defined.

Lemma key_lookup_ignores_case_witness :
  normalized ["PAGEDOWN"] = ["PageDown"]
  /\ normalized ["ArrowLeft"] = ["ArrowLeft"]
  /\ normalized ["pAgEdOwN"] = ["PageDown"]
  /\ normalized ["PageDown"] = ["PageDown"]
  /\ @normalized kelvin_text [kelvin_backspace] = ["Backspace"].
Proof.
  destruct (key_lookup_ignores_case "PAGEDOWN") as (Hin & _ & Hcase & _).
  destruct (key_lookup_ignores_case "ArrowLeft") as (_ & Hout & _).
  destruct (key_lookup_ignores_case "pagedown") as (_ & _ & _ & Hname).
  destruct (@key_lookup_ignores_case kelvin_text kelvin_backspace) as (Hkelvin & _).
  split; [apply Hin; vm_compute; reflexivity|].
  split; [apply Hout; vm_compute; reflexivity|].
  split; [apply Hcase; vm_compute; reflexivity|].
  split; [|apply Hkelvin; vm_compute; reflexivity].
  destruct (Hname "PageDown") as (_ & Hfix & _); [vm_compute; reflexivity|].
  exact Hfix.
Defined.

(** ** The Python built-ins on concrete values *)

Example lower_mixed_case : lower "PageUp-F12 ;" = "pageup-f12 ;".
Proof. reflexivity. Qed.

Example lower_outside_ascii :
  is_ascii kelvin_backspace = false
  /\ @lower kelvin_text kelvin_backspace = "backspace"
  /\ @lower ascii_text kelvin_backspace = kelvin_backspace.
Proof. repeat split; reflexivity. Qed.

Example slice_drops_last : slice_to ["a"; "b"; "c"] (-1) = ["a"; "b"].
Proof. reflexivity. Qed.

Example slice_of_one : slice_to ["a"] (-1) = [].
Proof. reflexivity. Qed.

Example subscript_last : getitem ["a"; "b"; "c"] (-1) = inr "c".
Proof. reflexivity. Qed.

Example subscript_out_of_range :
  getitem ["a"] (-2) = inl (IndexError "list index out of range")
  /\ getitem ["a"] 1 = inl (IndexError "list index out of range").
Proof. split; reflexivity. Qed.

Example str_of_ints : str 0 = "0" /\ str 720 = "720" /\ str (-720) = "-720".
Proof. repeat split; reflexivity. Qed.

Example floor_division : 1441 / 2 = 720 /\ -3 / 2 = -2.
Proof. split; reflexivity. Qed.

Example startswith_is_case_sensitive :
  startswith "https://example.com" ["http://"; "https://"] = true
  /\ startswith "HTTPS://example.com" ["http://"; "https://"] = false
  /\ startswith "example.com" ["http://"; "https://"] = false.
Proof. repeat split; reflexivity. Qed.

(** Before [__aenter__] the receiver of [keyboard.press] is [None]: the
    attribute lookup fails before [keys[-1]] is evaluated. *)
Example key_combination_unattached :
  fst (key_combination steady [] unattached)
  = Raised (AttributeError "'NoneType' object has no attribute 'keyboard'").
Proof. reflexivity. Qed.

(** Clearing a field before typing: select all, delete, then the text. *)
Example type_text_at_clears_first :
  log (snd (type_text_at steady "linux" 10 20 "hi" None None session))
  = [MouseClick 4%nat 10 20; WaitForLoadState 4%nat;
     KeyboardDown 4%nat "ControlOrMeta"; KeyboardPress 4%nat "A";
     KeyboardUp 4%nat "ControlOrMeta";
     WaitForLoadState 4%nat; WaitForTimeout 4%nat 500; Screenshot 4%nat "png" false;
     KeyboardPress 4%nat "Delete";
     WaitForLoadState 4%nat; WaitForTimeout 4%nat 500; Screenshot 4%nat "png" false;
     KeyboardType 4%nat "hi"; WaitForLoadState 4%nat;
     WaitForLoadState 4%nat; WaitForTimeout 4%nat 500; Screenshot 4%nat "png" false].
Proof. vm_compute. reflexivity. Qed.

(** ** Every action ends in a capture *)

Section Frames.
Context (E : Engine).
Context {U : Unicode}.

Lemma appends_screen_size : appends screen_size.
Proof. unfold screen_size. appends_tac. Qed.

Lemma appends_aexit : appends (__aexit__ E).
Proof. unfold __aexit__. appends_tac. Qed.

Lemma appends_click_at x y : appends (click_at E x y).
Proof.
  unfold click_at. pose proof (appends_current_state E).
  pose proof (appends_highlight_mouse E x y). appends_tac.
Qed.

Lemma appends_hover_at x y : appends (hover_at E x y).
Proof.
  unfold hover_at. pose proof (appends_current_state E).
  pose proof (appends_highlight_mouse E x y). appends_tac.
Qed.

Lemma appends_navigate u : appends (navigate E u).
Proof. unfold navigate. pose proof (appends_current_state E). appends_tac. Qed.

Lemma appends_search : appends (search E).
Proof. unfold search. pose proof appends_navigate. appends_tac. Qed.

Lemma appends_wait_5_seconds : appends (wait_5_seconds E).
Proof. unfold wait_5_seconds. pose proof (appends_current_state E). appends_tac. Qed.

Lemma appends_go_back : appends (go_back E).
Proof. unfold go_back. pose proof (appends_current_state E). appends_tac. Qed.

Lemma appends_go_forward : appends (go_forward E).
Proof. unfold go_forward. pose proof (appends_current_state E). appends_tac. Qed.

Lemma appends_horizontal_document_scroll d : appends (_horizontal_document_scroll E d).
Proof.
  unfold _horizontal_document_scroll. pose proof (appends_current_state E).
  pose proof appends_screen_size. appends_tac.
Qed.

Lemma appends_scroll_document d : appends (scroll_document E d).
Proof.
  unfold scroll_document. pose proof (appends_key_combination E).
  pose proof appends_horizontal_document_scroll. appends_tac.
Qed.

Lemma appends_scroll_at x y d m : appends (scroll_at E x y d m).
Proof.
  unfold scroll_at. pose proof (appends_current_state E).
  pose proof (appends_highlight_mouse E x y). appends_tac.
Qed.

Lemma appends_drag_and_drop x y dx dy : appends (drag_and_drop E x y dx dy).
Proof.
  unfold drag_and_drop. pose proof (appends_current_state E).
  pose proof (appends_highlight_mouse E). appends_tac.
Qed.

Lemma appends_type_text_at plat x y text pe cl : appends (type_text_at E plat x y text pe cl).
Proof.
  unfold type_text_at. pose proof (appends_current_state E).
  pose proof (appends_highlight_mouse E x y). pose proof (appends_key_combination E).
  appends_tac.
Qed.

End Frames.

Section FreshSnapshots.
Context (E : Engine).
Context {U : Unicode}.

Lemma current_state_returned s p snap s' :
  _page (self s) = Some p -> current_state E s = (Returned snap, s') ->
  log s' = (log s ++ capture_calls p)%list
  /\ url snap = page_url (world s') p
  /\ screenshot snap = pixels (world s') p.
Proof.
  intros Hp.
  unfold current_state, page_call, self_page, get_self, attr, bind,
    call, call_screenshot, read_url, ret.
  simpl. rewrite Hp. simpl. rewrite Hp.
  destruct (fault E (WaitForLoadState p) (world s)); [discriminate|].
  destruct (fault E (WaitForTimeout p 500) _); [discriminate|].
  simpl. rewrite Hp.
  destruct (fault E (Screenshot p "png" false) _); [discriminate|].
  simpl. rewrite Hp.
  intros H. inversion H; subst; clear H. simpl.
  rewrite <- !app_assoc. auto.
Qed.

Lemma fresh_snapshot_current_state : fresh_snapshot (current_state E).
Proof.
  intros s p snap s' Hp Hrun.
  destruct (current_state_returned s p snap s' Hp Hrun) as (Hl & Hu & Hs).
  split; [by exists []|]. by split.
Qed.

Lemma fresh_snapshot_raise e : fresh_snapshot (raise e).
Proof. intros s p snap s' _ H. discriminate H. Qed.

Lemma fresh_snapshot_bind {A} (m : M A) (k : A -> M EnvState) :
  appends m -> (forall a, fresh_snapshot (k a)) -> fresh_snapshot (bind m k).
Proof.
  intros Hm Hk s p snap s' Hp Hrun. unfold bind in Hrun.
  destruct (Hm s) as (cs1 & Hl1 & Hs1 & _).
  destruct (m s) as [[a|e] s1]; [|discriminate]. simpl in Hl1, Hs1.
  assert (Hp1 : _page (self s1) = Some p) by (by rewrite Hs1).
  destruct (Hk a s1 p snap s' Hp1 Hrun) as ([cs Hl] & Hu & Hshot).
  split; [|by split].
  exists (cs1 ++ cs)%list. rewrite Hl, Hl1. by rewrite <- !app_assoc.
Qed.

End FreshSnapshots.

(** Peel the binds of an action down to the [current_state] it ends in. *)
Ltac fresh_tac :=
  repeat first
    [ apply fresh_snapshot_current_state
    | apply fresh_snapshot_raise
    | apply fresh_snapshot_bind; [solve [appends_tac] | intros ? ]
    | match goal with
      | |- fresh_snapshot (if ?b then _ else _) => destruct b
      | |- fresh_snapshot (let _ := _ in _) => cbv zeta
      | H : _ |- _ => apply H
      end ].

Section Actions.
Context (E : Engine).
Context {U : Unicode}.

Lemma fresh_snapshot_key_combination keys : fresh_snapshot (key_combination E keys).
Proof. unfold key_combination. fresh_tac. Qed.

Lemma fresh_snapshot_navigate u : fresh_snapshot (navigate E u).
Proof. unfold navigate. fresh_tac. Qed.

(** X1. Whatever the engine does, when an action of the class returns a
    snapshot with the page attached, the last three calls it issued are
    the two waits and the screenshot of a capture, and the snapshot holds
    the URL and the raster of the page in the world the action ends in. *)
Theorem every_action_ends_in_a_capture sys_platform x y destination_x destination_y
    text press_enter clear_before_typing direction magnitude keys u :
  fresh_snapshot (open_web_browser E)
  /\ fresh_snapshot (click_at E x y)
  /\ fresh_snapshot (hover_at E x y)
  /\ fresh_snapshot (type_text_at E sys_platform x y text press_enter clear_before_typing)
  /\ fresh_snapshot (scroll_document E direction)
  /\ fresh_snapshot (scroll_at E x y direction magnitude)
  /\ fresh_snapshot (wait_5_seconds E)
  /\ fresh_snapshot (go_back E)
  /\ fresh_snapshot (go_forward E)
  /\ fresh_snapshot (search E)
  /\ fresh_snapshot (navigate E u)
  /\ fresh_snapshot (key_combination E keys)
  /\ fresh_snapshot (drag_and_drop E x y destination_x destination_y).
Proof.
  pose proof (appends_highlight_mouse E) as Hh.
  pose proof (appends_key_combination E) as Hk.
  pose proof appends_screen_size as Hs.
  pose proof fresh_snapshot_key_combination as Hfk.
  pose proof fresh_snapshot_navigate as Hfn.
  repeat apply conj.
  - apply fresh_snapshot_current_state.
  - unfold click_at. fresh_tac.
  - unfold hover_at. fresh_tac.
  - unfold type_text_at. fresh_tac.
  - unfold scroll_document, _horizontal_document_scroll. fresh_tac.
  - unfold scroll_at. fresh_tac.
  - unfold wait_5_seconds. fresh_tac.
  - unfold go_back. fresh_tac.
  - unfold go_forward. fresh_tac.
  - unfold search. fresh_tac.
  - apply Hfn.
  - apply Hfk.
  - unfold drag_and_drop. fresh_tac.
Qed.

(** X2. Whatever the engine does, no action, nor the popup handler, nor
    [__aexit__], assigns a field of the object or touches the registered
    listeners: they only add calls at the end of the log.  In particular
    [__aexit__] leaves the three handles set. *)
Theorem actions_keep_the_object sys_platform x y destination_x destination_y
    text press_enter clear_before_typing direction magnitude keys u new_page :
  appends (open_web_browser E)
  /\ appends (click_at E x y)
  /\ appends (hover_at E x y)
  /\ appends (type_text_at E sys_platform x y text press_enter clear_before_typing)
  /\ appends (scroll_document E direction)
  /\ appends (scroll_at E x y direction magnitude)
  /\ appends (wait_5_seconds E)
  /\ appends (go_back E)
  /\ appends (go_forward E)
  /\ appends (search E)
  /\ appends (navigate E u)
  /\ appends (key_combination E keys)
  /\ appends (drag_and_drop E x y destination_x destination_y)
  /\ appends (_handle_new_page E new_page)
  /\ appends (__aexit__ E).
Proof.
  repeat apply conj.
  - apply appends_current_state.
  - apply appends_click_at.
  - apply appends_hover_at.
  - apply appends_type_text_at.
  - apply appends_scroll_document.
  - apply appends_scroll_at.
  - apply appends_wait_5_seconds.
  - apply appends_go_back.
  - apply appends_go_forward.
  - apply appends_search.
  - apply appends_navigate.
  - apply appends_key_combination.
  - apply appends_drag_and_drop.
  - apply appends_handle_new_page.
  - apply appends_aexit.
Qed.

End Actions.

Lemma every_action_ends_in_a_capture_witness :
  _page (self session) = Some 4%nat
  /\ exists cs : list Call,
       log (snd (drag_and_drop steady 10 20 300 400 session))
       = (log session ++ cs ++ capture_calls 4%nat)%list.
Proof.
  split; [reflexivity|].
  destruct (every_action_ends_in_a_capture steady "linux" 10 20 300 400 "hi" None None
              "up" None ["Enter"] "example.com")
    as (_ & _ & _ & _ & _ & _ & _ & _ & _ & _ & _ & _ & Hdrag).
  destruct (drag_and_drop steady 10 20 300 400 session) as [[snap|e] s'] eqn:Hrun;
    [|vm_compute in Hrun; discriminate Hrun].
  apply (Hdrag session 4%nat snap s' session_attached Hrun).
Defined.

(** ** Before the session is entered *)

Section Unattached.
Context (E : Engine).
Context {U : Unicode}.

Lemma self_page_none name s :
  _page (self s) = None ->
  self_page name s
  = (Raised (AttributeError ("'NoneType' object has no attribute '" ++ name ++ "'")), s).
Proof. intros H. unfold self_page, bind, get_self, attr, raise. by rewrite H. Qed.

Lemma page_call_none name c s :
  _page (self s) = None ->
  page_call E name c s
  = (Raised (AttributeError ("'NoneType' object has no attribute '" ++ name ++ "'")), s).
Proof.
  intros H. unfold page_call. by rewrite (bind_raised _ _ _ _ _ (self_page_none name s H)).
Qed.

Lemma screen_size_none s :
  _page (self s) = None ->
  screen_size s
  = (Raised (AttributeError "'NoneType' object has no attribute 'viewport_size'"), s).
Proof.
  intros H. unfold screen_size.
  by rewrite (bind_raised _ _ _ _ _ (self_page_none "viewport_size" s H)).
Qed.

Lemma refuses_page_call name c (k : M EnvState) s :
  _page (self s) = None -> refuses (page_call E name c ;; k) s.
Proof. intros H. eexists. by rewrite (bind_raised _ _ _ _ _ (page_call_none name c s H)). Qed.

Lemma highlight_mouse_none x y s :
  _page (self s) = None ->
  highlight_mouse E x y s
  = if _highlight_mouse (self s)
    then (Raised (AttributeError "'NoneType' object has no attribute 'evaluate'"), s)
    else (Returned tt, s).
Proof.
  intros H. unfold highlight_mouse. unfold bind at 1, get_self.
  destruct (_highlight_mouse (self s)); cbn [negb]; [|reflexivity].
  by rewrite (bind_raised _ _ _ _ _ (page_call_none _ _ s H)).
Qed.

Lemma refuses_after_highlight x y name c (k : M EnvState) s :
  _page (self s) = None ->
  refuses (highlight_mouse E x y ;; page_call E name c ;; k) s.
Proof.
  intros H. unfold refuses. unfold bind at 1. rewrite (highlight_mouse_none x y s H).
  destruct (_highlight_mouse (self s)); [by eexists|].
  apply (refuses_page_call name c k s H).
Qed.

Lemma refuses_key_combination keys s :
  _page (self s) = None -> refuses (key_combination E keys) s.
Proof.
  intros H. unfold key_combination. cbv zeta.
  destruct (slice_to (normalized keys) (-1)) as [|key rest]; cbn [for_each].
  - eexists. rewrite ret_bind.
    by rewrite (bind_raised _ _ _ _ _ (self_page_none "keyboard" s H)).
  - eexists. unfold bind at 1. unfold bind at 1.
    by rewrite (page_call_none _ _ s H).
Qed.

(** X3. On an object whose page is not set (before [__aenter__]) every
    action stops with the AttributeError of a method call on [None],
    without issuing any engine call and without changing anything;
    [scroll_document] does so for each of its four directions. *)
Theorem actions_need_the_page sys_platform x y destination_x destination_y
    text press_enter clear_before_typing direction magnitude keys u s :
  _page (self s) = None ->
  refuses (open_web_browser E) s
  /\ refuses (click_at E x y) s
  /\ refuses (hover_at E x y) s
  /\ refuses (type_text_at E sys_platform x y text press_enter clear_before_typing) s
  /\ (In direction ["up"; "down"; "left"; "right"] -> refuses (scroll_document E direction) s)
  /\ refuses (scroll_at E x y direction magnitude) s
  /\ refuses (wait_5_seconds E) s
  /\ refuses (go_back E) s
  /\ refuses (go_forward E) s
  /\ refuses (search E) s
  /\ refuses (navigate E u) s
  /\ refuses (key_combination E keys) s
  /\ refuses (drag_and_drop E x y destination_x destination_y) s.
Proof.
  intros H. repeat apply conj.
  - apply refuses_page_call, H.
  - apply refuses_after_highlight, H.
  - apply refuses_after_highlight, H.
  - unfold type_text_at. cbv zeta. apply refuses_after_highlight, H.
  - intros [<-|[<-|[<-|[<-|[]]]]].
    + apply refuses_key_combination, H.
    + apply refuses_key_combination, H.
    + eexists. unfold scroll_document. cbn [String.eqb Ascii.eqb Bool.eqb contains existsb orb].
      unfold _horizontal_document_scroll.
      by rewrite (bind_raised _ _ _ _ _ (screen_size_none s H)).
    + eexists. unfold scroll_document. cbn [String.eqb Ascii.eqb Bool.eqb contains existsb orb].
      unfold _horizontal_document_scroll.
      by rewrite (bind_raised _ _ _ _ _ (screen_size_none s H)).
  - unfold scroll_at. cbv zeta. apply refuses_after_highlight, H.
  - apply refuses_page_call, H.
  - apply refuses_page_call, H.
  - apply refuses_page_call, H.
  - unfold search, navigate. unfold bind at 1, get_self. cbv zeta.
    apply refuses_page_call, H.
  - unfold navigate. cbv zeta. apply refuses_page_call, H.
  - apply refuses_key_combination, H.
  - apply refuses_after_highlight, H.
Qed.

End Unattached.

Lemma actions_need_the_page_witness :
  _page (self unattached) = None
  /\ click_at steady 10 20 unattached
     = (Raised (AttributeError "'NoneType' object has no attribute 'mouse'"), unattached).
Proof.
  split; [reflexivity|].
  destruct (actions_need_the_page steady "linux" 10 20 300 400 "hi" None None "up" None
              ["Enter"] "example.com" unattached eq_refl) as (_ & [msg Hclick] & _).
  rewrite Hclick. vm_compute in Hclick. by inversion Hclick.
Defined.

(** ** What each action issues when every call goes through *)

Lemma filter_mouse_highlight on p x y :
  List.filter is_mouse (highlight_calls on p x y) = [].
Proof. by destruct on. Qed.

Section Sequences.
Context (E : Engine).
Context {U : Unicode}.

Lemma navigate_ok u s p :
  reliable E -> _page (self s) = Some p ->
  runs E (navigate E u) (Goto p (goto_target u) :: WaitForLoadState p :: capture_calls p) s.
Proof.
  intros Hrel Hp. unfold runs, navigate, goto_target.
  destruct (startswith u ["http://"; "https://"]); cbn [negb];
    do 2 run_step Hrel Hp; run_method Hrel Hp; by eexists.
Qed.

(** X4. On an engine whose calls return and with the page attached, the
    pointer actions return a snapshot after exactly these calls: the
    highlight (when switched on), the pointer event, one wait for the
    load state, the capture.  [click_at] issues one click and no move,
    [hover_at] one move and no click, and [drag_and_drop] moves to the
    source, presses, moves to the destination and releases, in that
    order, with a wait after each step but the release. *)
Theorem pointer_actions_run x y destination_x destination_y s p :
  reliable E -> _page (self s) = Some p ->
  let on := _highlight_mouse (self s) in
  runs E (click_at E x y)
       (highlight_calls on p x y ++ [MouseClick p x y; WaitForLoadState p]
        ++ capture_calls p) s
  /\ runs E (hover_at E x y)
          (highlight_calls on p x y ++ [MouseMove p x y; WaitForLoadState p]
           ++ capture_calls p) s
  /\ runs E (drag_and_drop E x y destination_x destination_y)
          (drag_and_drop_calls on p x y destination_x destination_y) s
  /\ List.filter is_mouse (drag_and_drop_calls on p x y destination_x destination_y)
     = [MouseMove p x y; MouseDown p; MouseMove p destination_x destination_y; MouseUp p].
Proof.
  intros Hrel Hp on. subst on. repeat apply conj.
  - unfold runs, click_at. run_method Hrel Hp. do 2 run_step Hrel Hp.
    run_method Hrel Hp. eexists. by rewrite <- !app_assoc.
  - unfold runs, hover_at. run_method Hrel Hp. do 2 run_step Hrel Hp.
    run_method Hrel Hp. eexists. by rewrite <- !app_assoc.
  - unfold runs, drag_and_drop, drag_and_drop_calls.
    run_method Hrel Hp. do 4 run_step Hrel Hp.
    run_method Hrel Hp. do 3 run_step Hrel Hp. run_method Hrel Hp.
    eexists. by rewrite <- !app_assoc.
  - unfold drag_and_drop_calls.
    rewrite !List.filter_app, !filter_mouse_highlight. reflexivity.
Qed.

(** X5. On an engine whose calls return and with the page attached:
    [open_web_browser] issues the capture alone; [wait_5_seconds] a wait
    of 5000 ms before it; [go_back] and [go_forward] the history call and
    a wait for the load state; [search] is the navigation to the
    configured search engine URL, prefixed like any URL. *)
Theorem page_actions_run s p :
  reliable E -> _page (self s) = Some p ->
  runs E (open_web_browser E) (capture_calls p) s
  /\ runs E (wait_5_seconds E) (WaitForTimeout p 5000 :: capture_calls p) s
  /\ runs E (go_back E) (GoBack p :: WaitForLoadState p :: capture_calls p) s
  /\ runs E (go_forward E) (GoForward p :: WaitForLoadState p :: capture_calls p) s
  /\ runs E (search E)
          (Goto p (goto_target (_search_engine_url (self s)))
           :: WaitForLoadState p :: capture_calls p) s
  /\ search E s = navigate E (_search_engine_url (self s)) s.
Proof.
  intros Hrel Hp. repeat apply conj.
  - unfold runs, open_web_browser. run_method Hrel Hp. by eexists.
  - unfold runs, wait_5_seconds. run_step Hrel Hp. run_method Hrel Hp. by eexists.
  - unfold runs, go_back. do 2 run_step Hrel Hp. run_method Hrel Hp. by eexists.
  - unfold runs, go_forward. do 2 run_step Hrel Hp. run_method Hrel Hp. by eexists.
  - unfold search. unfold runs, bind at 1, get_self.
    apply (navigate_ok _ s p Hrel Hp).
  - reflexivity.
Qed.

End Sequences.

Lemma pointer_actions_run_witness :
  log (snd (drag_and_drop steady 10 20 300 400 (highlighting session)))
  = [Evaluate 4%nat (highlight_script 10 20); WaitForTimeout 4%nat 1000;
     MouseMove 4%nat 10 20; WaitForLoadState 4%nat; MouseDown 4%nat; WaitForLoadState 4%nat;
     Evaluate 4%nat (highlight_script 300 400); WaitForTimeout 4%nat 1000;
     MouseMove 4%nat 300 400; WaitForLoadState 4%nat; MouseUp 4%nat;
     WaitForLoadState 4%nat; WaitForTimeout 4%nat 500; Screenshot 4%nat "png" false].
Proof.
  destruct (pointer_actions_run steady 10 20 300 400 (highlighting session) 4%nat
              steady_reliable eq_refl) as (_ & _ & [snap Hrun] & _).
  rewrite Hrun. reflexivity.
Defined.

Lemma page_actions_run_witness :
  log (snd (search steady session))
  = [Goto 4%nat "https://www.google.com"; WaitForLoadState 4%nat;
     WaitForLoadState 4%nat; WaitForTimeout 4%nat 500; Screenshot 4%nat "png" false]
  /\ log (snd (wait_5_seconds steady session))
     = [WaitForTimeout 4%nat 5000;
        WaitForLoadState 4%nat; WaitForTimeout 4%nat 500; Screenshot 4%nat "png" false].
Proof.
  destruct (page_actions_run steady session 4%nat steady_reliable session_attached)
    as (_ & [snap1 Hwait] & _ & _ & [snap2 Hsearch] & _).
  rewrite Hwait, Hsearch. split; reflexivity.
Defined.

(** ** Typing *)

(** The same for a block of chords with a known effect. *)
Ltac run_block lem Hrel Hp :=
  match goal with
  | |- context [bind ?m ?k ?s1] =>
      rewrite (bind_returned m k s1 tt _ (lem s1 _ Hrel Hp))
  end;
  rewrite ?after_after.

Section Typing.
Context (E : Engine).
Context {U : Unicode}.

Lemma key_chord_ok m k s p :
  reliable E -> _page (self s) = Some p ->
  exists snap,
    key_combination E [m; k] s
    = (Returned snap,
       after E ([KeyboardDown p (dict_get PLAYWRIGHT_KEY_MAP (lower m) m);
                 KeyboardPress p (dict_get PLAYWRIGHT_KEY_MAP (lower k) k);
                 KeyboardUp p (dict_get PLAYWRIGHT_KEY_MAP (lower m) m)]
                ++ capture_calls p) s).
Proof.
  intros Hrel Hp. eexists.
  apply (key_combination_ok E [m] k s p Hrel Hp).
Qed.

Lemma key_press_ok k s p :
  reliable E -> _page (self s) = Some p ->
  exists snap,
    key_combination E [k] s
    = (Returned snap,
       after E ([KeyboardPress p (dict_get PLAYWRIGHT_KEY_MAP (lower k) k)]
                ++ capture_calls p) s).
Proof.
  intros Hrel Hp. eexists.
  apply (key_combination_ok E [] k s p Hrel Hp).
Qed.

Lemma clear_field_ok sys_platform s p :
  reliable E -> _page (self s) = Some p ->
  ((if String.eqb sys_platform "darwin"
    then key_combination E ["Command"; "A"]
    else key_combination E ["Control"; "A"]) ;;
   key_combination E ["Delete"] ;; ret tt) s
  = (Returned tt,
     after E ([KeyboardDown p (select_all_modifier sys_platform); KeyboardPress p "A";
               KeyboardUp p (select_all_modifier sys_platform)]
              ++ capture_calls p ++ [KeyboardPress p "Delete"] ++ capture_calls p) s).
Proof.
  intros Hrel Hp. unfold select_all_modifier.
  destruct (String.eqb sys_platform "darwin").
  - destruct (key_chord_ok "Command" "A" s p Hrel Hp) as [snap1 H1].
    rewrite (bind_returned _ _ _ _ _ H1).
    match goal with
    | |- context [bind (key_combination E ["Delete"]) _ ?s1] =>
        destruct (key_press_ok "Delete" s1 p Hrel Hp) as [snap2 H2]
    end.
    rewrite (bind_returned _ _ _ _ _ H2). unfold ret. rewrite after_after.
    rewrite <- !app_assoc. reflexivity.
  - destruct (key_chord_ok "Control" "A" s p Hrel Hp) as [snap1 H1].
    rewrite (bind_returned _ _ _ _ _ H1).
    match goal with
    | |- context [bind (key_combination E ["Delete"]) _ ?s1] =>
        destruct (key_press_ok "Delete" s1 p Hrel Hp) as [snap2 H2]
    end.
    rewrite (bind_returned _ _ _ _ _ H2). unfold ret. rewrite after_after.
    rewrite <- !app_assoc. reflexivity.
Qed.

Lemma press_enter_ok s p :
  reliable E -> _page (self s) = Some p ->
  (key_combination E ["Enter"] ;; ret tt) s
  = (Returned tt, after E ([KeyboardPress p "Enter"] ++ capture_calls p) s).
Proof.
  intros Hrel Hp.
  destruct (key_press_ok "Enter" s p Hrel Hp) as [snap H].
  rewrite (bind_returned _ _ _ _ _ H). reflexivity.
Qed.

(** X6. On an engine whose calls return and with the page attached,
    [type_text_at] returns a snapshot after: the highlight (when on), a
    click at the point and a wait; when clearing is on (the default) the
    select-all chord (Meta+A on darwin, ControlOrMeta+A elsewhere) and a
    press of Delete, each followed by a capture of its own; the text
    typed as given; when [press_enter] is on (off by default) a press of
    Enter with its capture; a wait and the final capture.  So a field is
    cleared before, never after, the text is typed. *)
Theorem type_text_at_runs sys_platform x y text press_enter clear_before_typing s p :
  reliable E -> _page (self s) = Some p ->
  runs E (type_text_at E sys_platform x y text press_enter clear_before_typing)
       (type_text_at_calls sys_platform (_highlight_mouse (self s)) p x y text
          (default false press_enter) (default true clear_before_typing)) s
  /\ List.filter is_keyboard
       (type_text_at_calls sys_platform (_highlight_mouse (self s)) p x y text
          (default false press_enter) (default true clear_before_typing))
     = ((if default true clear_before_typing
         then [KeyboardDown p (select_all_modifier sys_platform); KeyboardPress p "A";
               KeyboardUp p (select_all_modifier sys_platform); KeyboardPress p "Delete"]
         else [])
        ++ [KeyboardType p text]
        ++ (if default false press_enter then [KeyboardPress p "Enter"] else []))%list.
Proof.
  intros Hrel Hp. split.
  - unfold runs, type_text_at, type_text_at_calls. cbv zeta.
    run_method Hrel Hp. do 2 run_step Hrel Hp.
    destruct (default true clear_before_typing), (default false press_enter).
    + run_block (clear_field_ok sys_platform) Hrel Hp. run_step Hrel Hp.
      run_block press_enter_ok Hrel Hp. run_step Hrel Hp. run_method Hrel Hp.
      eexists. rewrite <- !app_assoc. reflexivity.
    + run_block (clear_field_ok sys_platform) Hrel Hp. run_step Hrel Hp.
      rewrite ret_bind. run_step Hrel Hp. run_method Hrel Hp.
      eexists. rewrite <- !app_assoc. reflexivity.
    + rewrite ret_bind. run_step Hrel Hp.
      run_block press_enter_ok Hrel Hp. run_step Hrel Hp. run_method Hrel Hp.
      eexists. rewrite <- !app_assoc. reflexivity.
    + rewrite ret_bind. run_step Hrel Hp.
      rewrite ret_bind. run_step Hrel Hp. run_method Hrel Hp.
      eexists. rewrite <- !app_assoc. reflexivity.
  - unfold type_text_at_calls, highlight_calls.
    destruct (_highlight_mouse (self s)), (default true clear_before_typing),
      (default false press_enter); reflexivity.
Qed.

End Typing.

Lemma type_text_at_runs_witness :
  List.filter is_keyboard
    (log (snd (type_text_at steady "darwin" 10 20 "hi" (Some true) None session)))
  = [KeyboardDown 4%nat "Meta"; KeyboardPress 4%nat "A"; KeyboardUp 4%nat "Meta";
     KeyboardPress 4%nat "Delete"; KeyboardType 4%nat "hi"; KeyboardPress 4%nat "Enter"].
Proof.
  destruct (type_text_at_runs steady "darwin" 10 20 "hi" (Some true) None session 4%nat
              steady_reliable session_attached) as ([snap Hrun] & Hkeys).
  rewrite Hrun. cbn [snd]. change (log (after steady ?cs session)) with cs.
  rewrite Hkeys. reflexivity.
Defined.

(** ** A chord whose press fails *)

Section StuckKeys.
Context (E : Engine).
Context {U : Unicode}.

Lemma for_each_page_calls_ok name (c : string -> Handle -> Call) keys s p :
  (forall key w, fault E (c key p) w = None) -> _page (self s) = Some p ->
  for_each keys (fun key => page_call E name (c key)) s
  = (Returned tt, after E (map (fun key => c key p) keys) s).
Proof.
  intros Hok. revert s. induction keys as [|k keys IH]; intros s Hp; simpl.
  - by rewrite after_nil.
  - rewrite (bind_returned _ _ _ _ _ (page_call_ok E name (c k) s p Hp (Hok _ _))).
    rewrite IH by done. by rewrite after_after.
Qed.

(** X7. [key_combination] has no cleanup path: with the page attached,
    when the downs of the held keys go through and the press of the last
    key raises, that exception leaves [key_combination] right after the
    press, and no up is issued for any of the keys held down. *)
Theorem failed_press_leaves_keys_down held k s p e :
  _page (self s) = Some p ->
  (forall key w, fault E (KeyboardDown p key) w = None) ->
  fault E (KeyboardPress p (dict_get PLAYWRIGHT_KEY_MAP (lower k) k))
        (run_calls E (map (KeyboardDown p) (normalized held)) (world s)) = Some e ->
  exists s',
    key_combination E (held ++ [k])%list s = (Raised e, s')
    /\ log s'
       = (log s ++ map (KeyboardDown p) (normalized held)
          ++ [KeyboardPress p (dict_get PLAYWRIGHT_KEY_MAP (lower k) k)])%list
    /\ List.filter is_key_up (log s') = List.filter is_key_up (log s).
Proof.
  intros Hp Hdown Hpress. unfold key_combination.
  rewrite normalized_snoc, slice_to_last. cbv zeta.
  rewrite (bind_returned _ _ _ _ _
             (for_each_page_calls_ok "keyboard" (fun key p => KeyboardDown p key)
                (normalized held) s p Hdown Hp)).
  match goal with
  | |- context [bind (self_page ?n) ?k ?s1] =>
      rewrite (bind_returned (self_page n) k s1 _ _ (self_page_attached n s1 _ Hp))
  end.
  unfold subscript. rewrite getitem_last. rewrite ret_bind.
  match goal with
  | |- context [bind (call E ?c) ?k ?s1] =>
      rewrite (bind_raised (call E c) k s1 e _ (call_fault E c s1 e Hpress))
  end.
  rewrite after_after. eexists. split; [reflexivity|]. split; [reflexivity|].
  cbn [log after]. rewrite !List.filter_app.
  assert (Hnone : forall ks, List.filter is_key_up (map (fun key => KeyboardDown p key) ks) = []).
  { induction ks as [|a l IH]; [reflexivity | exact IH]. }
  rewrite Hnone. cbn [List.filter is_key_up app]. by rewrite app_nil_r.
Qed.

End StuckKeys.

Lemma failed_press_leaves_keys_down_witness :
  let E := failing is_key_press (EngineError "Unknown key: NoSuchKey") in
  exists s',
    key_combination E ["Control"; "Shift"; "NoSuchKey"] session
    = (Raised (EngineError "Unknown key: NoSuchKey"), s')
    /\ log s'
       = [KeyboardDown 4%nat "ControlOrMeta"; KeyboardDown 4%nat "Shift";
          KeyboardPress 4%nat "NoSuchKey"].
Proof.
  intros E.
  destruct (failed_press_leaves_keys_down E ["Control"; "Shift"] "NoSuchKey" session 4%nat
              (EngineError "Unknown key: NoSuchKey") session_attached)
    as (s' & Hrun & Hlog & _).
  - intros key w. reflexivity.
  - reflexivity.
  - exists s'. split; [exact Hrun|]. rewrite Hlog. vm_compute. reflexivity.
Defined.

(** ** Entering and leaving the session *)

(** Keep the state of a run of [__aenter__] in normal form. *)
Ltac aenter_state :=
  cbn [self world log listeners after run_calls fold_left ret
       _context _browser _playwright _page _screen_size _initial_url
       _search_engine_url _highlight_mouse
       set_page set_context set_browser set_playwright].

Ltac aenter_call Hrel :=
  match goal with
  | |- context [bind (call_new ?E ?c) ?k ?s1] =>
      rewrite (bind_returned _ k s1 _ _ (call_new_ok E c s1 (Hrel _ _)))
  end;
  aenter_state.

Section Lifecycle.
Context (E : Engine).
Context {U : Unicode}.

Lemma aexit_ok s :
  reliable E -> __aexit__ E s = (Returned tt, after E (teardown_calls (self s)) s).
Proof.
  intros Hrel. unfold __aexit__, teardown_calls, bind, get_self, call, ret.
  destruct s as [[u0 sz u1 hl pw b c p] w l ls]. simpl.
  destruct c, b, pw; simpl;
    rewrite ?Hrel; simpl; rewrite ?Hrel; simpl; rewrite ?Hrel;
    unfold after; simpl; rewrite <- ?app_assoc, ?app_nil_r; reflexivity.
Qed.

(** The state [__aenter__] ends in when every call returns. *)
Lemma aenter_ok s :
  reliable E ->
  let width := fst (_screen_size (self s)) in
  let height := snd (_screen_size (self s)) in
  let pw := new_object E Start (world s) in
  let b := new_object E (Launch pw launch_args true) (run_calls E [Start] (world s)) in
  let c := new_object E (NewContext b width height)
             (run_calls E [Start; Launch pw launch_args true] (world s)) in
  let p := new_object E (NewPage c)
             (run_calls E [Start; Launch pw launch_args true; NewContext b width height]
                (world s)) in
  let cs := [Start; Launch pw launch_args true; NewContext b width height; NewPage c;
             Goto p (_initial_url (self s))] in
  __aenter__ E s
  = (Returned tt,
     {| self := set_page p (set_context c (set_browser b (set_playwright pw (self s))));
        world := run_calls E cs (world s);
        log := (log s ++ cs)%list;
        listeners := (listeners s ++ [c])%list |}).
Proof.
  intros Hrel. cbv zeta. unfold __aenter__.
  rewrite (bind_returned _ _ _ _ _ (call_new_ok E Start s (Hrel _ _))).
  unfold bind at 1, set_self at 1. aenter_state.
  aenter_call Hrel.
  unfold bind at 1, set_self at 1. aenter_state.
  unfold bind at 1, get_self at 1. aenter_state.
  aenter_call Hrel.
  unfold bind at 1, set_self at 1. aenter_state.
  aenter_call Hrel.
  unfold bind at 1, set_self at 1. aenter_state.
  unfold bind at 1, get_self at 1. aenter_state.
  match goal with
  | |- context [bind (page_call E ?n ?c) ?k ?s1] =>
      rewrite (bind_returned _ k s1 tt _
                 (page_call_ok E n c s1 _ eq_refl (Hrel _ _)))
  end.
  unfold bind at 1, get_self at 1. aenter_state.
  unfold bind at 1, attr at 1. aenter_state.
  unfold bind at 1, on_page, ret. aenter_state.
  rewrite <- !app_assoc. reflexivity.
Qed.

(** X8. [__aenter__] issues, in this order: the engine start, the
    chromium launch with the seven flags and headless on, a context whose
    viewport is the configured screen size, a page, and the navigation of
    that page to the initial URL.  What it stores on the object are the
    four objects the engine returned for those calls.  When every call
    returns it then registers the popup handler on the context the engine
    returned; when the first four calls return and the initial navigation
    raises, that exception leaves [__aenter__] with the four objects
    stored and no popup handler registered: the handler is registered
    only after the initial navigation. *)
Theorem aenter_runs s :
  let width := fst (_screen_size (self s)) in
  let height := snd (_screen_size (self s)) in
  let pw := new_object E Start (world s) in
  let b := new_object E (Launch pw launch_args true) (run_calls E [Start] (world s)) in
  let c := new_object E (NewContext b width height)
             (run_calls E [Start; Launch pw launch_args true] (world s)) in
  let p := new_object E (NewPage c)
             (run_calls E [Start; Launch pw launch_args true; NewContext b width height]
                (world s)) in
  let acquire := [Start; Launch pw launch_args true; NewContext b width height; NewPage c] in
  let cs := (acquire ++ [Goto p (_initial_url (self s))])%list in
  (reliable E ->
   __aenter__ E s
   = (Returned tt,
      {| self := set_page p (set_context c (set_browser b (set_playwright pw (self s))));
         world := run_calls E cs (world s);
         log := (log s ++ cs)%list;
         listeners := (listeners s ++ [c])%list |}))
  /\ (forall e,
        returns_all E acquire (world s) ->
        fault E (Goto p (_initial_url (self s))) (run_calls E acquire (world s)) = Some e ->
        __aenter__ E s
        = (Raised e,
           {| self := set_page p (set_context c (set_browser b (set_playwright pw (self s))));
              world := run_calls E cs (world s);
              log := (log s ++ cs)%list;
              listeners := listeners s |})).
Proof.
  cbv zeta. split.
  - intros Hrel. exact (aenter_ok s Hrel).
  - intros e Hret Hgoto. cbn [returns_all] in Hret.
    destruct Hret as (H1 & H2 & H3 & H4 & _).
    unfold __aenter__.
    rewrite (bind_returned _ _ _ _ _ (call_new_ok E Start s H1)).
    unfold bind at 1, set_self at 1. aenter_state.
    match goal with
    | |- context [bind (call_new E ?c) ?k ?s1] =>
        rewrite (bind_returned _ k s1 _ _ (call_new_ok E c s1 H2))
    end. aenter_state.
    unfold bind at 1, set_self at 1. aenter_state.
    unfold bind at 1, get_self at 1. aenter_state.
    match goal with
    | |- context [bind (call_new E ?c) ?k ?s1] =>
        rewrite (bind_returned _ k s1 _ _ (call_new_ok E c s1 H3))
    end. aenter_state.
    unfold bind at 1, set_self at 1. aenter_state.
    match goal with
    | |- context [bind (call_new E ?c) ?k ?s1] =>
        rewrite (bind_returned _ k s1 _ _ (call_new_ok E c s1 H4))
    end. aenter_state.
    unfold bind at 1, set_self at 1. aenter_state.
    unfold bind at 1, get_self at 1. aenter_state.
    match goal with
    | |- context [bind (page_call E ?n ?c) ?k ?s1] =>
        rewrite (bind_raised _ k s1 e _
                   (page_call_fault E n c s1 _ e eq_refl Hgoto))
    end.
    unfold after. aenter_state. cbn [app]. rewrite <- !app_assoc. reflexivity.
Qed.

(** X9. When the engine starts and the chromium launch raises,
    [__aenter__] ends with that exception after those two calls: the
    engine handle is already stored on the object, no browser, context or
    page is, and no popup handler is registered.  On an object that was
    fresh, a later [__aexit__] issues the engine stop and nothing else. *)
Theorem failed_launch_keeps_engine_handle s e :
  fault E Start (world s) = None ->
  fault E (Launch (new_object E Start (world s)) launch_args true)
        (next E Start (world s)) = Some e ->
  let pw := new_object E Start (world s) in
  exists s',
    __aenter__ E s = (Raised e, s')
    /\ log s' = (log s ++ [Start; Launch pw launch_args true])%list
    /\ self s' = set_playwright pw (self s)
    /\ listeners s' = listeners s
    /\ (_context (self s) = None -> _browser (self s) = None ->
        log (snd (__aexit__ E s')) = (log s' ++ [Stop pw])%list).
Proof.
  intros Hstart Hlaunch pw. subst pw. unfold __aenter__.
  rewrite (bind_returned _ _ _ _ _ (call_new_ok E Start s Hstart)).
  erewrite bind_returned by reflexivity.
  unfold bind at 1, call_new. cbn [world after self log listeners run_calls fold_left].
  rewrite Hlaunch.
  eexists. split; [reflexivity|]. cbn [log self listeners].
  split; [by rewrite <- app_assoc|]. split; [reflexivity|]. split; [reflexivity|].
  intros Hc Hb. unfold __aexit__, bind, get_self, call, ret. cbn.
  rewrite Hc. cbn. rewrite Hb. cbn. reflexivity.
Qed.

(** X10. [__aexit__] does not clear the handles it releases: whatever
    the engine does the object is the same afterwards, so on an engine
    whose calls return a second [__aexit__] issues the same teardown calls
    once more.  On an object that was never entered it issues nothing. *)
Theorem aexit_keeps_handles s :
  self (snd (__aexit__ E s)) = self s
  /\ (reliable E ->
      (__aexit__ E ;; __aexit__ E) s
      = (Returned tt, after E (teardown_calls (self s) ++ teardown_calls (self s)) s))
  /\ (_context (self s) = None -> _browser (self s) = None ->
      _playwright (self s) = None -> __aexit__ E s = (Returned tt, s)).
Proof.
  repeat apply conj.
  - destruct (appends_aexit E s) as (cs & _ & Hself & _). exact Hself.
  - intros Hrel. rewrite (bind_returned _ _ _ _ _ (aexit_ok s Hrel)).
    rewrite (aexit_ok _ Hrel). by rewrite after_after.
  - intros Hc Hb Hpw. unfold __aexit__, bind, get_self, ret. cbn.
    rewrite Hc. cbn. rewrite Hb. cbn. by rewrite Hpw.
Qed.

(** X11. With the page attached, the popup handler stops at its first
    failing call: when closing the new page raises, the original page is
    not navigated; when the close goes through and the navigation raises,
    the new page has been closed and the exception leaves the handler. *)
Theorem handle_new_page_stops_at_failure new_page s p :
  _page (self s) = Some p ->
  (forall e, fault E (PageClose new_page) (world s) = Some e ->
     _handle_new_page E new_page s = (Raised e, after E [PageClose new_page] s))
  /\ (forall e, fault E (PageClose new_page) (world s) = None ->
        fault E (Goto p (page_url (world s) new_page))
              (next E (PageClose new_page) (world s)) = Some e ->
        _handle_new_page E new_page s
        = (Raised e,
           after E [PageClose new_page; Goto p (page_url (world s) new_page)] s)).
Proof.
  intros Hp. split.
  - intros e Hf. unfold _handle_new_page. unfold bind at 1, read_url.
    by rewrite (bind_raised _ _ _ _ _ (call_fault E _ s e Hf)).
  - intros e Hclose Hgoto. unfold _handle_new_page. unfold bind at 1, read_url.
    rewrite (bind_returned _ _ _ _ _ (call_ok E _ s Hclose)).
    rewrite (page_call_fault E "goto" (fun p => Goto p (page_url (world s) new_page))
               (after E [PageClose new_page] s) p e Hp Hgoto).
    by rewrite after_after.
Qed.

End Lifecycle.

Section EnterExit.
Context (E : Engine).
Context {U : Unicode}.

(** X12. On an engine whose calls return, [__aenter__] followed by
    [__aexit__] releases exactly what was acquired, last acquired first:
    after the five calls of the entry come the close of the context the
    engine returned for [new_context], the close of the browser it
    returned for the launch and the stop of the engine handle it returned
    for the start.  The page itself is never closed by a call of its
    own. *)
Theorem enter_then_exit s :
  reliable E ->
  let width := fst (_screen_size (self s)) in
  let height := snd (_screen_size (self s)) in
  let pw := new_object E Start (world s) in
  let b := new_object E (Launch pw launch_args true) (run_calls E [Start] (world s)) in
  let c := new_object E (NewContext b width height)
             (run_calls E [Start; Launch pw launch_args true] (world s)) in
  let p := new_object E (NewPage c)
             (run_calls E [Start; Launch pw launch_args true; NewContext b width height]
                (world s)) in
  let cs := [Start; Launch pw launch_args true; NewContext b width height; NewPage c;
             Goto p (_initial_url (self s));
             ContextClose c; BrowserClose b; Stop pw] in
  (__aenter__ E ;; __aexit__ E) s
  = (Returned tt,
     {| self := set_page p (set_context c (set_browser b (set_playwright pw (self s))));
        world := run_calls E cs (world s);
        log := (log s ++ cs)%list;
        listeners := (listeners s ++ [c])%list |})
  /\ List.filter is_page_close (log s ++ cs) = List.filter is_page_close (log s).
Proof.
  intros Hrel. cbv zeta. split.
  - pose proof (aenter_ok E s Hrel) as Hrun. cbv zeta in Hrun.
    rewrite (bind_returned _ _ _ _ _ Hrun).
    rewrite (aexit_ok E _ Hrel).
    unfold after.
    cbn [log self world listeners teardown_calls set_page set_context
      set_browser set_playwright _context _browser _playwright app run_calls fold_left].
    by rewrite <- app_assoc.
  - rewrite List.filter_app. cbn. by rewrite app_nil_r.
Qed.

(** X13. [scroll_at] does not check the sign of the magnitude: whatever
    the engine does, scrolling "up" by -m is scrolling "down" by m, and
    likewise for the other three directions. *)
Theorem scroll_at_negative_magnitude x y m s :
  scroll_at E x y "up" (Some (- m)) s = scroll_at E x y "down" (Some m) s
  /\ scroll_at E x y "down" (Some (- m)) s = scroll_at E x y "up" (Some m) s
  /\ scroll_at E x y "left" (Some (- m)) s = scroll_at E x y "right" (Some m) s
  /\ scroll_at E x y "right" (Some (- m)) s = scroll_at E x y "left" (Some m) s.
Proof.
  repeat apply conj; unfold scroll_at; simpl; rewrite ?Z.opp_involutive; reflexivity.
Qed.

End EnterExit.

(** X14. Normalising key names twice is normalising them once: an
    identifier the map produces is mapped to itself, and a name that
    passed through passes through again.  So [key_combination] may be
    given names it has already normalised. *)
Theorem normalized_twice {U : Unicode} keys :
  normalized (normalized keys) = normalized keys
  /\ forall E s, key_combination E (normalized keys) s = key_combination E keys s.
Proof.
  assert (H : normalized (normalized keys) = normalized keys).
  { unfold normalized. rewrite map_map. apply map_ext. intros k.
    destruct (PLAYWRIGHT_KEY_MAP !! lower k) as [v|] eqn:Hk.
    - assert (Hv : dict_get PLAYWRIGHT_KEY_MAP (lower k) k = v)
        by (unfold dict_get; by rewrite Hk).
      rewrite Hv. by destruct (key_map_shape (lower k) v Hk) as [_ Hfix].
    - assert (Hv : dict_get PLAYWRIGHT_KEY_MAP (lower k) k = k)
        by (unfold dict_get; by rewrite Hk).
      rewrite Hv. exact Hv. }
  split; [exact H|].
  intros E s. unfold key_combination. by rewrite H.
Qed.

Lemma aenter_runs_witness :
  let E := failing is_goto (EngineError "net::ERR_NAME_NOT_RESOLVED") in
  log (snd (__aenter__ steady unattached))
  = [Start; Launch 1%nat launch_args true; NewContext 2%nat 1440 900; NewPage 3%nat;
     Goto 4%nat "https://www.google.com"]
  /\ listeners (snd (__aenter__ steady unattached)) = [3%nat]
  /\ fst (__aenter__ E unattached) = Raised (EngineError "net::ERR_NAME_NOT_RESOLVED")
  /\ listeners (snd (__aenter__ E unattached)) = []
  /\ _page (self (snd (__aenter__ E unattached))) = Some 4%nat.
Proof.
  intros E.
  destruct (aenter_runs steady unattached) as [Hok _].
  destruct (aenter_runs E unattached) as [_ Hfail].
  rewrite (Hok steady_reliable).
  rewrite (Hfail (EngineError "net::ERR_NAME_NOT_RESOLVED")).
  - repeat split; reflexivity.
  - simpl. auto.
  - reflexivity.
Defined.

Lemma failed_launch_keeps_engine_handle_witness :
  let E := failing is_launch (EngineError "Executable does not exist") in
  exists s',
    __aenter__ E unattached = (Raised (EngineError "Executable does not exist"), s')
    /\ self s' = set_playwright 1%nat (self unattached)
    /\ listeners s' = []
    /\ log (snd (__aexit__ E s')) = (log s' ++ [Stop 1%nat])%list.
Proof.
  intros E.
  destruct (failed_launch_keeps_engine_handle E unattached
              (EngineError "Executable does not exist") eq_refl eq_refl)
    as (s' & Hrun & _ & Hself & Hl & Hexit).
  exists s'. split; [exact Hrun|]. split; [exact Hself|]. split; [exact Hl|].
  apply Hexit; reflexivity.
Defined.

Lemma aexit_keeps_handles_witness :
  log (snd ((__aexit__ steady ;; __aexit__ steady) session))
  = [ContextClose 3%nat; BrowserClose 2%nat; Stop 1%nat;
     ContextClose 3%nat; BrowserClose 2%nat; Stop 1%nat]
  /\ __aexit__ crashed_context unattached = (Returned tt, unattached).
Proof.
  split.
  - destruct (aexit_keeps_handles steady session) as (_ & Htwice & _).
    rewrite (Htwice steady_reliable). reflexivity.
  - destruct (aexit_keeps_handles crashed_context unattached) as (_ & _ & Hnone).
    apply Hnone; reflexivity.
Defined.

Lemma handle_new_page_stops_at_failure_witness :
  let E := failing is_page_close (EngineError "Target page has been closed") in
  let s := with_popup 5%nat "https://example.org/help" attached in
  _handle_new_page E 5%nat s
  = (Raised (EngineError "Target page has been closed"), after E [PageClose 5%nat] s)
  /\ page_url (world (after E [PageClose 5%nat] s)) 4%nat = "https://www.google.com".
Proof.
  intros E s. split; [|reflexivity].
  destruct (handle_new_page_stops_at_failure E 5%nat s 4%nat eq_refl) as [Hclose _].
  apply Hclose. reflexivity.
Defined.

Lemma enter_then_exit_witness :
  reliable steady
  /\ log (snd ((__aenter__ steady ;; __aexit__ steady) unattached))
     = [Start; Launch 1%nat launch_args true; NewContext 2%nat 1440 900; NewPage 3%nat;
        Goto 4%nat "https://www.google.com";
        ContextClose 3%nat; BrowserClose 2%nat; Stop 1%nat].
Proof.
  split; [exact steady_reliable|].
  destruct (enter_then_exit steady unattached steady_reliable) as [Hrun _].
  rewrite Hrun. reflexivity.
Defined.
